(** * ShellHub SSH server: public-key authenticator and session channel handler

    A shallow embedding of [ssh/server/handler/publickey.go] (the [PublicKey]
    callback) and of the session channel handler [DefaultSessionHandler]
    together with the properties of the specification that concern them.

    External collaborators (the internal API client, the SSH transport
    library, the [target], [magickey] and [session] packages) are not part of
    the embedded sources.  Their results are inputs of the model: API
    functions are fields of a class, and the outcome of every call made while
    one request is serviced travels with the event that delivers the
    request.

    The later parts embed, in the same way, the Docker connector
    ([Connection], [Connector]), the user and namespace services, the
    permission tables of the roles and the heartbeat worker. *)

From Stdlib Require Import ZArith Sorted Ascii.
From stdpp Require Import base strings list gmap.

Local Open Scope string_scope.
Local Open Scope list_scope.

(** ** Shared data model *)

Definition error := string.

Inductive result (A : Type) : Type :=
| Ok (a : A)
| Err (e : error).
Arguments Ok {A} a.
Arguments Err {A} e.

Definition is_err {A} (r : result A) : bool :=
  match r with Ok _ => false | Err _ => true end.

(** [models.Device], restricted to the fields the handlers read. *)
Record Device := mkDevice {
  DeviceUID : string;
  Name : string;
  Namespace : string;
  TenantID : string
}.

(** Modelled from the spec: the declaration of [session.Dimensions] is not
    among the sources; the window-change payload is
    [{columns, rows, pixel-width, pixel-height}], each a 32-bit unsigned
    integer. *)
Module Dimensions.
Record t := mk {
  Columns : Z;
  Rows : Z;
  Width : Z;
  Height : Z
}.
(** The zero value of the struct ([var dimensions session.Dimensions]). *)
Definition zero : t := mk 0 0 0 0.
End Dimensions.

(** Modelled from the spec: the declaration of [session.Pty] is not among the
    sources; the pty-req payload is
    [{term, columns, rows, pixel-width, pixel-height, modes}]. *)
Record Pty := mkPty {
  Term : string;
  Columns : Z;
  Rows : Z;
  Width : Z;
  Height : Z;
  Modes : list Byte.byte
}.

(** The zero value of the struct ([var pty session.Pty]). *)
Definition Pty_zero : Pty := mkPty "" 0 0 0 0 [].

(** [session.Session], restricted to the fields the handler reads or
    writes. *)
Record Session := mkSession {
  UID : string;
  SessDevice : Device;
  Username : string;
  IPAddress : string;
  SessPty : Pty
}.

Definition set_Pty (sess : Session) (pty : Pty) : Session :=
  mkSession (UID sess) (SessDevice sess) (Username sess) (IPAddress sess) pty.

(** [sess.Pty.Columns = c] *)
Definition set_Pty_Columns (sess : Session) (c : Z) : Session :=
  let p := SessPty sess in
  set_Pty sess (mkPty (Term p) c (Rows p) (Width p) (Height p) (Modes p)).

(** [sess.Pty.Rows = r] *)
Definition set_Pty_Rows (sess : Session) (r : Z) : Session :=
  let p := SessPty sess in
  set_Pty sess (mkPty (Term p) (Columns p) r (Width p) (Height p) (Modes p)).

(** ** The connection context ([gliderssh.Context])

    A key/value bag.  [ContextKeyUser] is the library's own key for the login
    name; the handlers also use plain string keys.  Values are dynamically
    typed: the code recovers them with a type assertion. *)

Inductive CtxValue :=
| VString (s : string)
| VSession (sess : Session)
| VOther.

Inductive CtxKey :=
| ContextKeyUser
| StringKey (k : string).

#[global] Instance CtxKey_eq_dec : EqDecision CtxKey.
Proof. solve_decision. Defined.

#[global] Instance CtxKey_countable : Countable CtxKey.
Proof.
  refine (inj_countable'
            (fun k => match k with ContextKeyUser => None | StringKey s => Some s end)
            (fun o => match o with None => ContextKeyUser | Some s => StringKey s end) _).
  by intros [].
Defined.

(** The type assertion to a string. *)
Definition as_string (v : option CtxValue) : option string :=
  match v with
  | Some (VString s) => Some s
  | _ => None
  end.

(** The type assertion to a session pointer. *)
Definition as_session (v : option CtxValue) : option Session :=
  match v with
  | Some (VSession s) => Some s
  | _ => None
  end.

Inductive Level := Trace | Debug | Info | Warn | Error.

(** ** The authenticator: [PublicKey] *)

Module Auth.

(** [target.Target]: the parsed login identifier.  The [target] package is
    not among the sources; the callback reads the fields [Data] and
    [Username] and calls [IsSSHID] and [SplitSSHID], which are taken as
    collaborators below. *)
Record Target := mkTarget {
  Data : string;
  Username : string
}.

(** Calls on the internal API client, in the order they are made. *)
Inductive APICall :=
| CallGetDevice (uid : string)
| CallDeviceLookup (lookup : gmap string string)
| CallGetPublicKey (fingerprint tenant : string)
| CallEvaluateKey (fingerprint : string) (device : Device) (username : string).

Definition is_key_call (c : APICall) : bool :=
  match c with
  | CallGetPublicKey _ _ | CallEvaluateKey _ _ _ => true
  | _ => false
  end.

(** The collaborators of the callback.  [PubKey] is the presented key,
    [FingerprintLegacyMD5] the transport library's digest,
    [magicPubKey] the result of
    [ssh.NewPublicKey(&magickey.GetRerefence().PublicKey)]. *)
Class Collaborators := {
  PubKey : Type;
  FingerprintLegacyMD5 : PubKey -> string;
  magicPubKey : result PubKey;
  NewTarget : string -> result Target;
  IsSSHID : Target -> bool;
  SplitSSHID : Target -> result (string * string);
  GetDevice : string -> result Device;
  DeviceLookup : gmap string string -> Device * list error;
  GetPublicKey : string -> string -> result unit;
  EvaluateKey : string -> Device -> string -> bool * option error
}.

(** What one invocation of the callback does: the verdict handed to the
    transport, the API calls made, the error logged on a rejection, and
    the context afterwards. *)
Record Verdict := mkVerdict {
  accepted : bool;
  api_calls : list APICall;
  logged : option string;
  ctx_after : gmap CtxKey CtxValue
}.

Section PublicKey.
Context `{C : Collaborators}.

Definition deny (ctx : gmap CtxKey CtxValue) (calls : list APICall) (msg : string) : Verdict :=
  mkVerdict false calls (Some msg) ctx.

(** Lines 43-76: the [lookup] map, from the SSHID or from the device the
    API returns for a direct reference. *)
Definition build_lookup (tag : Target) : result (gmap string string) * list APICall :=
  if IsSSHID tag then
    match SplitSSHID tag with
    | Err e => (Err "Failed to get the device's hostname and namespace", [])
    | Ok (namespace, hostname) =>
        (Ok (<["name" := hostname]> (<["domain" := namespace]> ∅)), [])
    end
  else
    match GetDevice (Data tag) with
    | Err e => (Err "Failed to get the device from API", [CallGetDevice (Data tag)])
    | Ok device =>
        (Ok (<["name" := Name device]> (<["domain" := Namespace device]> ∅)),
         [CallGetDevice (Data tag)])
    end.

(** Lines 108-131: the evaluation of a key that is not the magic key. *)
Definition evaluate (fingerprint : string) (device : Device) (tag : Target)
  : option string * list APICall :=
  match GetPublicKey fingerprint (TenantID device) with
  | Err e =>
      (Some "Failed to get the public key form the API server",
       [CallGetPublicKey fingerprint (TenantID device)])
  | Ok _ =>
      let '(ok, err) := EvaluateKey fingerprint device (Username tag) in
      let calls := [CallGetPublicKey fingerprint (TenantID device);
                    CallEvaluateKey fingerprint device (Username tag)] in
      if negb ok || bool_decide (err ≠ None)
      then (Some "Failed to evaluate the public key on the API server", calls)
      else (None, calls)
  end.

Definition PublicKey (ctx : gmap CtxKey CtxValue) (pubKey : PubKey) : Verdict :=
  let fingerprint := FingerprintLegacyMD5 pubKey in
  match as_string (ctx !! ContextKeyUser) with
  | None => deny ctx [] "Failed to get the session's SSHID from context"
  | Some sshid =>
    match NewTarget sshid with
    | Err _ => deny ctx [] "Failed to get the session's target"
    | Ok tag =>
      match build_lookup tag with
      | (Err msg, calls) => deny ctx calls msg
      | (Ok lookup, calls) =>
        let '(device, errs) := DeviceLookup lookup in
        let calls := calls ++ [CallDeviceLookup lookup] in
        if bool_decide (0 < length errs) then
          deny ctx calls "Failed to get the device's data in the API server"
        else
          match magicPubKey with
          | Err _ => deny ctx calls "Failed to create the magic pulick key"
          | Ok magic =>
            if bool_decide (FingerprintLegacyMD5 magic ≠ fingerprint) then
              match evaluate fingerprint device tag with
              | (Some msg, calls') => deny ctx (calls ++ calls') msg
              | (None, calls') =>
                  mkVerdict true (calls ++ calls') None
                            (<[StringKey "public_key" := VString fingerprint]> ctx)
              end
            else
              mkVerdict true calls None (<[StringKey "public_key" := VString fingerprint]> ctx)
          end
      end
    end
  end.

(** The stages of the callback, as predicates on its inputs. *)

Definition identifier_recovered (ctx : gmap CtxKey CtxValue) : option string :=
  as_string (ctx !! ContextKeyUser).

(** Device resolution: the lookup map is built and [DeviceLookup]
    reports no error. *)
Definition device_resolved (tag : Target) : option Device :=
  match build_lookup tag with
  | (Ok lookup, _) =>
      let '(device, errs) := DeviceLookup lookup in
      if bool_decide (0 < length errs) then None else Some device
  | (Err _, _) => None
  end.

Definition key_lookup_ok (fingerprint : string) (device : Device) : bool :=
  negb (is_err (GetPublicKey fingerprint (TenantID device))).

Definition key_evaluation_ok (fingerprint : string) (device : Device) (tag : Target) : bool :=
  let '(ok, err) := EvaluateKey fingerprint device (Username tag) in
  ok && bool_decide (err = None).

End PublicKey.

(** A concrete set of collaborators, used to run the callback: keys are
    their own fingerprints, the magic key is ["magic"], the only registered
    device is [mydevice] in namespace [example], the only registered public
    key is ["alice-key"], which authorises user [root] alone. *)

Definition mydevice : Device := mkDevice "dev-1" "mydevice" "example" "tenant-1".

Definition demo_NewTarget (s : string) : result Target :=
  if String.eqb s "" then Err "malformed target"
  else if String.eqb s "guest@example.mydevice" then Ok (mkTarget s "guest")
  else Ok (mkTarget s "root").

Definition demo_IsSSHID (tag : Target) : bool :=
  negb (String.eqb (Data tag) "dev-1").

Definition demo_SplitSSHID (tag : Target) : result (string * string) :=
  if demo_IsSSHID tag then Ok ("example", "mydevice") else Err "invalid sshid".

Definition demo_GetDevice (uid : string) : result Device :=
  if String.eqb uid "dev-1" then Ok mydevice else Err "not found".

Definition demo_DeviceLookup (lookup : gmap string string) : Device * list error :=
  match lookup !! "domain", lookup !! "name" with
  | Some "example", Some "mydevice" => (mydevice, [])
  | _, _ => (mydevice, ["device not found"])
  end.

Definition demo_GetPublicKey (fingerprint tenant : string) : result unit :=
  if String.eqb fingerprint "alice-key" && String.eqb tenant "tenant-1"
  then Ok tt else Err "key not found".

Definition demo_EvaluateKey (fingerprint : string) (device : Device) (username : string)
  : bool * option error :=
  (String.eqb fingerprint "alice-key" && String.eqb username "root", None).

Definition demo : Collaborators := {|
  PubKey := string;
  FingerprintLegacyMD5 := fun k => k;
  magicPubKey := Ok "magic";
  NewTarget := demo_NewTarget;
  IsSSHID := demo_IsSSHID;
  SplitSSHID := demo_SplitSSHID;
  GetDevice := demo_GetDevice;
  DeviceLookup := demo_DeviceLookup;
  GetPublicKey := demo_GetPublicKey;
  EvaluateKey := demo_EvaluateKey
|}.

Definition demo_ctx (login : string) : gmap CtxKey CtxValue :=
  <[ContextKeyUser := VString login]> ∅.

End Auth.

(** ** The session channel handler: [DefaultSessionHandler] *)

Module Handler.

Definition ShellRequestType : string := "shell".
Definition ExecRequestType : string := "exec".
Definition SubsystemRequestType : string := "subsystem".
Definition PtyRequestType : string := "pty-req".
Definition WindowChangeRequestType : string := "window-change".
Definition KeepAliveRequestType : string := "keepalive".

(** Modelled from the spec: the constant [SessionChannel] is declared outside
    the sources; the handler opens a "session" channel on the agent. *)
Definition SessionChannel : string := "session".

(** [gossh.Request]: what the handler reads of a request. *)
Record Request := mkRequest {
  ReqType : string;
  WantReply : bool;
  Payload : list Byte.byte
}.

(** The results of the calls the handler makes while it services one
    request.  None of the callees is under the handler's control:
    [agent.SendRequest] / [client.SendRequest] return [(send_ok, send_err)],
    [req.Reply] returns [reply_err], [sess.KeepAlive] returns
    [keepalive_err], [sess.Announce] returns [announce_err], and
    [gossh.Unmarshal] returns [unmarshal_err] after leaving
    [unmarshal_pty] (for a pty-req) or [unmarshal_dim] (for a
    window-change) in the struct it was given. *)
Record Outcome := mkOutcome {
  send_ok : bool;
  send_err : option error;
  reply_err : option error;
  keepalive_err : option error;
  announce_err : option error;
  unmarshal_err : option error;
  unmarshal_pty : Pty;
  unmarshal_dim : Dimensions.t
}.

(** What the [select] of the multiplex loop can receive.  A receive from a
    closed channel is [None]. *)
Inductive Event :=
| CtxDone
| AgentGlobalReq (req : option Request) (o : Outcome)
| ClientReq (req : option Request) (o : Outcome)
| AgentReq (req : option Request) (o : Outcome).

Inductive Origin := FromClient | FromAgent | FromAgentGlobal.

Inductive Peer := ToAgent | ToClient.

(** The observable actions of the handler, in program order.  [Reply] is
    the call [req.Reply(ok, payload)] on a request received from [origin];
    a [nil] payload is [None].  [GoPipe] is [go pipe(...)]: the data pipe
    runs on its own and is not part of the handler's trace. *)
Inductive Action :=
| Log (lvl : Level) (msg : string)
| NewChanReject (msg : string)
| NewChanAccept
| AgentOpenChannel (name : string)
| SendRequest (to : Peer) (type : string) (wantReply : bool) (payload : list Byte.byte)
| Reply (origin : Origin) (req : Request) (ok : bool) (payload : option (list Byte.byte))
| SessKeepAlive
| SessAnnounce
| SessFinish
| GoPipe (type : string)
| AgentClose
| ClientClose
| ConnClose.

(** The [reject] closure: log the error, reject the new channel with
    [gossh.ConnectionFailed]. *)
Definition reject (msg : string) : list Action :=
  [Log Error msg; NewChanReject msg].

(** The variables the loop mutates: the session (through the pointer
    [sess]) and the flag [started]. *)
Record LoopState := mkLoop {
  sess : Session;
  started : bool
}.

(** How the body of the [for] ends: [continue] / fall out of the [select],
    or [return]. *)
Inductive Flow := Next | Return.

Definition is_program (type : string) : bool :=
  bool_decide (type = ShellRequestType) ||
  bool_decide (type = ExecRequestType) ||
  bool_decide (type = SubsystemRequestType).

(** [case req, ok := <-sess.AgentGlobalReqs] *)
Definition on_agent_global (st : LoopState) (r : option Request) (o : Outcome)
  : list Action * LoopState * Flow :=
  match r with
  | None => ([Log Trace "global requests is closed"], st, Return)
  | Some req =>
    let pre := [Log Debug "global request from agent"] in
    if bool_decide (ReqType req = KeepAliveRequestType) then
      match keepalive_err o with
      | Some e => (pre ++ [SessKeepAlive; Log Error e], st, Return)
      | None =>
        let rep := [SessKeepAlive; Reply FromAgentGlobal req false None] in
        match reply_err o with
        | Some e => (pre ++ rep ++ [Log Error e], st, Next)
        | None => (pre ++ rep, st, Next)
        end
      end
    else if WantReply req then
      match reply_err o with
      | Some e => (pre ++ [Reply FromAgentGlobal req false None; Log Error e], st, Next)
      | None => (pre ++ [Reply FromAgentGlobal req false None], st, Next)
      end
    else (pre, st, Next)
  end.

(** The [ShellRequestType, ExecRequestType, SubsystemRequestType] case;
    [ok] is the result of forwarding the request to the agent. *)
Definition on_program (st : LoopState) (req : Request) (ok : bool) (o : Outcome)
  : list Action * LoopState * Flow :=
  if negb (started st) then
    if WantReply req then
      match reply_err o with
      | Some _ =>
          ([Reply FromClient req ok (Some []);
            Log Error "failed to reply the client with right response for pipe request type"],
           st, Return)
      | None =>
          let announce :=
            if bool_decide (ReqType req = ShellRequestType) then
              match announce_err o with
              | Some _ => [SessAnnounce; Log Warn "failed to get the namespace announcement"]
              | None => [SessAnnounce]
              end
            else [] in
          ([Reply FromClient req ok (Some []); Log Info "session type set"]
             ++ announce ++ [GoPipe (ReqType req)],
           mkLoop (sess st) true, Next)
      end
    else ([], st, Next)
  else
    let acts := [Log Warn "tried to start and forbidden request type";
                 Reply FromClient req false None] in
    match reply_err o with
    | Some _ =>
        (acts ++ [Log Error "failed to reply the client when data pipe already started"],
         st, Return)
    | None => (acts, st, Next)
    end.

(** The [PtyRequestType] case. *)
Definition on_pty_req (st : LoopState) (req : Request) (ok : bool) (o : Outcome)
  : list Action * LoopState * Flow :=
  let pty := unmarshal_pty o in
  let decode :=
    match unmarshal_err o with
    | Some _ => reject "failed to recover the session dimensions"
    | None => []
    end in
  let st' := mkLoop (set_Pty (sess st) pty) (started st) in
  if WantReply req then
    match reply_err o with
    | Some _ =>
        (decode ++ [Reply FromClient req ok None; Log Error "failed to reply for pty-req"],
         st', Return)
    | None => (decode ++ [Reply FromClient req ok None], st', Next)
    end
  else (decode, st', Next).

(** The [WindowChangeRequestType] case. *)
Definition on_window_change (st : LoopState) (req : Request) (ok : bool) (o : Outcome)
  : list Action * LoopState * Flow :=
  let dimensions := unmarshal_dim o in
  let decode :=
    match unmarshal_err o with
    | Some _ => reject "failed to recover the session dimensions"
    | None => []
    end in
  let s1 := set_Pty_Columns (sess st) (Dimensions.Columns dimensions) in
  let s2 := set_Pty_Rows s1 (Dimensions.Rows dimensions) in
  let st' := mkLoop s2 (started st) in
  if WantReply req
  then (decode ++ [Reply FromClient req ok None], st', Next)
  else (decode, st', Next).

(** [case req, ok := <-clientReqs] *)
Definition on_client (st : LoopState) (r : option Request) (o : Outcome)
  : list Action * LoopState * Flow :=
  match r with
  | None => ([Log Trace "client requests is closed"], st, Return)
  | Some req =>
    let pre := [Log Debug "request from client to agent";
                SendRequest ToAgent (ReqType req) (WantReply req) (Payload req)] in
    match send_err o with
    | Some _ => (pre, st, Next)
    | None =>
      let ok := send_ok o in
      let '(acts, st', fl) :=
        if is_program (ReqType req) then on_program st req ok o
        else if bool_decide (ReqType req = PtyRequestType) then on_pty_req st req ok o
        else if bool_decide (ReqType req = WindowChangeRequestType)
             then on_window_change st req ok o
        else if WantReply req then
          match reply_err o with
          | Some _ =>
              ([Reply FromClient req ok None; Log Error "failed to reply for window-change"],
               st, Return)
          | None => ([Reply FromClient req ok None], st, Next)
          end
        else ([], st, Next) in
      (pre ++ acts, st', fl)
    end
  end.

(** [case req, ok := <-agentReqs] *)
Definition on_agent (st : LoopState) (r : option Request) (o : Outcome)
  : list Action * LoopState * Flow :=
  match r with
  | None => ([Log Trace "agent requests is closed"], st, Return)
  | Some req =>
    let pre := [Log Debug "request from agent to client";
                SendRequest ToClient (ReqType req) (WantReply req) (Payload req)] in
    match send_err o with
    | Some _ => (pre, st, Next)
    | None =>
      if WantReply req then
        match reply_err o with
        | Some _ =>
            (pre ++ [Reply FromAgent req (send_ok o) None;
                     Log Error "failed to reply the agent request"], st, Return)
        | None => (pre ++ [Reply FromAgent req (send_ok o) None], st, Next)
        end
      else (pre, st, Next)
    end
  end.

(** One iteration of the [for] / [select]. *)
Definition on_event (st : LoopState) (e : Event) : list Action * LoopState * Flow :=
  match e with
  | CtxDone => ([Log Info "context has done"], st, Return)
  | AgentGlobalReq r o => on_agent_global st r o
  | ClientReq r o => on_client st r o
  | AgentReq r o => on_agent st r o
  end.

(** How a run of the handler over a finite list of events ends: it has
    returned, or it is blocked in the [select] with nothing left to
    receive. *)
Inductive Ending := Returned | Blocked.

(** The multiplex loop.  Events after the one that makes the handler
    return are never received. *)
Fixpoint multiplex (st : LoopState) (es : list Event) : list Action * LoopState * Ending :=
  match es with
  | [] => ([], st, Blocked)
  | e :: es' =>
      let '(acts, st', fl) := on_event st e in
      match fl with
      | Return => (acts, st', Returned)
      | Next =>
          let '(acts', st'', end_) := multiplex st' es' in
          (acts ++ acts', st'', end_)
      end
  end.

(** The deferred calls run when the handler returns, last deferred first.
    The stack is kept with its top at the head. *)
Definition run_defers (defers : list Action) (e : Ending) : list Action :=
  match e with
  | Returned => defers
  | Blocked => []
  end.

(** What the handler is given besides the events: the context, and the
    results of [newChan.Accept] and [sess.Agent.OpenChannel]. *)
Record Setup := mkSetup {
  ctx : gmap CtxKey CtxValue;
  accept_err : option error;
  open_err : option error
}.

Definition DefaultSessionHandler (su : Setup) (es : list Event)
  : list Action * option LoopState * Ending :=
  (* defer conn.Close() *)
  let d1 := [ConnClose] in
  match as_session (ctx su !! StringKey "session") with
  | None =>
      (reject "failed to recover the session created" ++ run_defers d1 Returned,
       None, Returned)
  | Some s =>
      let st := mkLoop s false in
      (* defer sess.Finish() *)
      let d2 := SessFinish :: d1 in
      let a2 := [Log Info "session channel started"] in
      (* defer log ... Info("session channel done") *)
      let d3 := Log Info "session channel done" :: d2 in
      match accept_err su with
      | Some _ =>
          (a2 ++ [NewChanAccept] ++ reject "failed to accept the channel opening"
              ++ run_defers d3 Returned,
           Some st, Returned)
      | None =>
          (* defer client.Close() *)
          let d4 := ClientClose :: d3 in
          match open_err su with
          | Some _ =>
              (a2 ++ [NewChanAccept; AgentOpenChannel SessionChannel]
                  ++ reject "failed to open the 'session' channel on agent"
                  ++ run_defers d4 Returned,
               Some st, Returned)
          | None =>
              (* defer agent.Close() *)
              let d5 := AgentClose :: d4 in
              let '(acts, st', end_) := multiplex st es in
              (a2 ++ [NewChanAccept; AgentOpenChannel SessionChannel]
                  ++ acts ++ run_defers d5 end_,
               Some st', end_)
          end
      end
  end.

(** *** Vocabulary of the properties *)

Fixpoint count {A} (p : A -> bool) (l : list A) : nat :=
  match l with
  | [] => 0
  | a :: l' => (if p a then 1 else 0) + count p l'
  end.

(** Position of the first element that satisfies [p]. *)
Fixpoint index {A} (p : A -> bool) (l : list A) : option nat :=
  match l with
  | [] => None
  | a :: l' => if p a then Some 0 else S <$> index p l'
  end.

(** The first [p] occurs, and before the first [q]. *)
Definition precedes {A} (p q : A -> bool) (l : list A) : bool :=
  match index p l, index q l with
  | Some i, Some j => bool_decide (i < j)
  | _, _ => false
  end.

Definition is_finish (a : Action) : bool :=
  match a with SessFinish => true | _ => false end.

Definition is_pipe (a : Action) : bool :=
  match a with GoPipe _ => true | _ => false end.

Definition is_agent_close (a : Action) : bool :=
  match a with AgentClose => true | _ => false end.

Definition is_client_close (a : Action) : bool :=
  match a with ClientClose => true | _ => false end.

Definition is_conn_close (a : Action) : bool :=
  match a with ConnClose => true | _ => false end.

(** A reply sent to the client for one of its requests. *)
Definition is_client_reply (a : Action) : bool :=
  match a with Reply FromClient _ _ _ => true | _ => false end.

(** A positive reply sent to the client for a shell, exec or subsystem
    request. *)
Definition is_positive_program_reply (a : Action) : bool :=
  match a with
  | Reply FromClient req true _ => is_program (ReqType req)
  | _ => false
  end.

(** The teardown steps of a trace, in the order they happen. *)
Definition teardown (tr : list Action) : list Action :=
  List.filter (fun a => is_agent_close a || is_client_close a
                        || is_conn_close a || is_finish a) tr.

Definition failed (e : option error) : bool :=
  match e with Some _ => true | None => false end.

(** The events on which the loop is left, spelled out case by case: the
    context is done; one of the three request channels is closed; the
    keep-alive call fails; or a reply fails on one of the paths that
    return. *)
Definition exits (st : LoopState) (e : Event) : bool :=
  match e with
  | CtxDone => true
  | AgentGlobalReq None _ | ClientReq None _ | AgentReq None _ => true
  | AgentGlobalReq (Some req) o =>
      bool_decide (ReqType req = KeepAliveRequestType) && failed (keepalive_err o)
  | AgentReq (Some req) o =>
      negb (failed (send_err o)) && WantReply req && failed (reply_err o)
  | ClientReq (Some req) o =>
      negb (failed (send_err o)) && failed (reply_err o) &&
      (if is_program (ReqType req) then started st || WantReply req
       else if bool_decide (ReqType req = WindowChangeRequestType) then false
       else WantReply req)
  end.

(** Case analysis on one iteration of the loop. *)
Ltac unfold_event :=
  unfold on_event, on_agent_global, on_client, on_agent, on_program,
    on_pty_req, on_window_change, reject in *.

Ltac event_cases :=
  unfold_event; repeat case_match; simplify_eq/=.

(** What is left of the one-program allowance in a state. *)
Definition allowance (st : LoopState) : nat := if started st then 0 else 1.

Definition carried (st : LoopState) (fl : Flow) : nat :=
  match fl with Next => allowance st | Return => 0 end.

(** *** Concrete sessions, requests and outcomes *)

Definition xterm_80x24 : Pty := mkPty "xterm" 80 24 0 0 [].

Definition demo_sess : Session :=
  mkSession "sess-1" Auth.mydevice "root" "10.0.0.7" Pty_zero.

Definition demo_setup : Setup :=
  mkSetup (<[StringKey "session" := VSession demo_sess]> ∅) None None.

(** Every call succeeds; the agent accepts the request. *)
Definition all_ok : Outcome :=
  mkOutcome true None None None None None Pty_zero Dimensions.zero.

(** Forwarding the request fails. *)
Definition forward_fails : Outcome :=
  mkOutcome false (Some "EOF") None None None None Pty_zero Dimensions.zero.

(** The request is forwarded and accepted, the reply is not delivered. *)
Definition reply_fails : Outcome :=
  mkOutcome true None (Some "EOF") None None None Pty_zero Dimensions.zero.

(** The keep-alive call on the API fails. *)
Definition keepalive_fails : Outcome :=
  mkOutcome true None None (Some "api: unreachable") None None Pty_zero Dimensions.zero.

(** The payload decodes to [pty]. *)
Definition decodes_pty (pty : Pty) : Outcome :=
  mkOutcome true None None None None None pty Dimensions.zero.

(** The payload decodes to [dim]. *)
Definition decodes_dim (dim : Dimensions.t) : Outcome :=
  mkOutcome true None None None None None Pty_zero dim.

(** A pty-req payload cut short after the terminal name: [gossh.Unmarshal]
    has filled [Term] when it reports the short read. *)
Definition short_pty_payload : Outcome :=
  mkOutcome true None None None None (Some "ssh: short read")
            (mkPty "xterm" 0 0 0 0 []) Dimensions.zero.

Definition shell_req : Request := mkRequest ShellRequestType true [].
Definition exec_req : Request := mkRequest ExecRequestType true [].
Definition exec_noreply : Request := mkRequest ExecRequestType false [].
Definition pty_req : Request := mkRequest PtyRequestType true [].
Definition window_change : Request := mkRequest WindowChangeRequestType true [].
Definition keepalive_req : Request := mkRequest KeepAliveRequestType true [].

End Handler.

(** ** Reading the calls of the authenticator *)

Module Calls.
Import Auth.

(** The position of an API in the order the callback uses them. *)
Definition call_rank (c : APICall) : nat :=
  match c with
  | CallGetDevice _ => 0
  | CallDeviceLookup _ => 1
  | CallGetPublicKey _ _ => 2
  | CallEvaluateKey _ _ _ => 3
  end.

Definition is_get_device (c : APICall) : bool :=
  match c with CallGetDevice _ => true | _ => false end.

(** The collaborators of [demo], except that the magic key cannot be
    converted into an SSH public key. *)
Definition demo_no_magic : Collaborators := {|
  PubKey := string;
  FingerprintLegacyMD5 := fun k => k;
  magicPubKey := Err "ssh: unsupported key type";
  NewTarget := demo_NewTarget;
  IsSSHID := demo_IsSSHID;
  SplitSSHID := demo_SplitSSHID;
  GetDevice := demo_GetDevice;
  DeviceLookup := demo_DeviceLookup;
  GetPublicKey := demo_GetPublicKey;
  EvaluateKey := demo_EvaluateKey
|}.

End Calls.

(** ** Reading runs of the handler *)

Module Run.
Import Handler.

(** What goes on the wire when a request is forwarded: type, want-reply
    flag, payload. *)
Definition wire (req : Request) : string * bool * list Byte.byte :=
  (ReqType req, WantReply req, Payload req).

Definition same_peer (p q : Peer) : bool :=
  match p, q with
  | ToAgent, ToAgent | ToClient, ToClient => true
  | _, _ => false
  end.

(** The requests sent to a peer, in the order of the trace. *)
Definition forwarded (to : Peer) (tr : list Action) : list (string * bool * list Byte.byte) :=
  omap (fun a => match a with
                 | SendRequest p t w pl => if same_peer p to then Some (t, w, pl) else None
                 | _ => None
                 end) tr.

(** The requests the client, respectively the agent, delivered on its
    request channel, in the order of the events. *)
Definition from_client (es : list Event) : list (string * bool * list Byte.byte) :=
  omap (fun e => match e with ClientReq (Some r) _ => Some (wire r) | _ => None end) es.

Definition from_agent (es : list Event) : list (string * bool * list Byte.byte) :=
  omap (fun e => match e with AgentReq (Some r) _ => Some (wire r) | _ => None end) es.

Definition is_announce (a : Action) : bool :=
  match a with SessAnnounce => true | _ => false end.

Definition is_shell_pipe (a : Action) : bool :=
  match a with GoPipe t => bool_decide (t = ShellRequestType) | _ => false end.


Definition is_send (a : Action) : bool :=
  match a with SendRequest _ _ _ _ => true | _ => false end.

Definition is_reply (a : Action) : bool :=
  match a with Reply _ _ _ _ => true | _ => false end.

Definition is_accept (a : Action) : bool :=
  match a with NewChanAccept => true | _ => false end.

Definition is_channel_reject (a : Action) : bool :=
  match a with NewChanReject _ => true | _ => false end.

(** A client request that rewrites the stored pseudo-terminal state. *)
Definition is_resize (e : Event) : bool :=
  match e with
  | ClientReq (Some r) _ =>
      bool_decide (ReqType r = PtyRequestType) ||
      bool_decide (ReqType r = WindowChangeRequestType)
  | _ => false
  end.


Definition b2n (b : bool) : nat := if b then 1 else 0.


(** The fields of a session that say whose it is. *)
Definition same_identity (s s' : Session) : Prop :=
  UID s' = UID s /\ SessDevice s' = SessDevice s /\
  Username s' = Username s /\ IPAddress s' = IPAddress s.

(** How far the set-up of the handler gets. *)
Inductive Stage := NoSession | AcceptFailed | OpenFailed | InLoop.

Definition stage (su : Setup) : Stage :=
  match as_session (ctx su !! StringKey "session") with
  | None => NoSession
  | Some _ =>
      match accept_err su with
      | Some _ => AcceptFailed
      | None => match open_err su with Some _ => OpenFailed | None => InLoop end
      end
  end.

Definition no_session_setup : Setup := mkSetup ∅ None None.

Definition accept_fails_setup : Setup :=
  mkSetup (<[StringKey "session" := VSession demo_sess]> ∅) (Some "accept: closed") None.

Definition open_fails_setup : Setup :=
  mkSetup (<[StringKey "session" := VSession demo_sess]> ∅) None (Some "agent: unreachable").

Definition subsystem_req : Request := mkRequest SubsystemRequestType true [].
Definition env_req : Request := mkRequest "env" true [].
Definition exit_status_req : Request := mkRequest "exit-status" false [].

End Run.

(** ** The Docker connector: [Connection] and [Connector] *)

Module Connector.

Definition NilStatus : string := "nil".
Definition ConnectedStatus : string := "connected".
Definition DisconnectedStatus : string := "disconnected".
Definition StartedStatus : string := "started".
Definition FailedStatus : string := "failed".
Definition StopedStatus : string := "stoped".

Definition ErrConnectionEstablished : error :=
  "connection to Docker Remote Engine already established".
Definition ErrConnectionFailed : error :=
  "connection to Docker Remote Engine failed".
Definition ErrConnectionUndefined : error :=
  "connection to Docker Remote Engine is undefined".
Definition ErrConnectorConnectionNotFound : error := "connection not found".
Definition ErrConnectorConnectionAlreadyAdded : error := "connectio already added".

(** [Connection]; [cli] is the pointer to the Docker client ([None] is
    [nil], the client itself is a handle of the Docker library), [stop] the
    number of signals waiting in the buffered channel of that name. *)
Record Connection := mkConnection {
  cli : option nat;
  stop : nat;
  status : string;
  serverAddress : string;
  privateKeysDir : string
}.

Definition NewConnection (serverAddress privateKeysDir : string) : Connection :=
  mkConnection None 0 NilStatus serverAddress privateKeysDir.

Definition set_status (c : Connection) (st : string) : Connection :=
  mkConnection (cli c) (stop c) st (serverAddress c) (privateKeysDir c).

(** [Connect]; [dial] is the result of [client.NewClientWithOpts] for the
    address.  The result is the connection afterwards and the error
    returned. *)
Definition Connect (c : Connection) (address : string) (dial : string -> result nat)
  : Connection * option error :=
  match cli c with
  | Some _ => (c, Some ErrConnectionEstablished)
  | None =>
      match dial address with
      | Err e => (c, Some e)
      | Ok handle =>
          (mkConnection (Some handle) (stop c) ConnectedStatus (serverAddress c) (privateKeysDir c),
           None)
      end
  end.

(** [Disconnect]; [close] is the result of [c.cli.Close()]. *)
Definition Disconnect (c : Connection) (close : option error) : Connection * option error :=
  match cli c with
  | None => (c, Some ErrConnectionUndefined)
  | Some _ => (set_status c DisconnectedStatus, close)
  end.

(** [Ping]; [ping] is the error of [c.cli.Ping(ctx)], [close] the result of
    the [Close] made by the [Disconnect] that follows a failed ping. *)
Definition Ping (c : Connection) (ping close : option error) : Connection * option error :=
  match cli c with
  | None => (c, Some ErrConnectionUndefined)
  | Some _ =>
      match ping with
      | Some e => ((Disconnect c close).1, Some e)
      | None => (c, None)
      end
  end.

(** The calls that can be made on a connection one after the other, each
    with the results of the Docker client it meets. *)
Inductive Op :=
| OpConnect (address : string) (dial : string -> result nat)
| OpPing (ping close : option error)
| OpDisconnect (close : option error).

Definition apply_op (c : Connection) (op : Op) : Connection * option error :=
  match op with
  | OpConnect address dial => Connect c address dial
  | OpPing ping close => Ping c ping close
  | OpDisconnect close => Disconnect c close
  end.

(** The connection after a sequence of calls. *)
Definition apply_ops (c : Connection) (ops : list Op) : Connection :=
  foldl (fun c op => (apply_op c op).1) c ops.

(** [Connector.Connections]: the connections by tenant.  The values are
    pointers to connections; the map operations never look at them. *)
Section Connections.
Context {Ptr : Type}.

Definition GetConnection (m : gmap string Ptr) (tenant : string) : result Ptr :=
  match m !! tenant with
  | Some conn => Ok conn
  | None => Err ErrConnectorConnectionNotFound
  end.

Definition AddConnection (m : gmap string Ptr) (tenant : string) (conn : Ptr)
  : gmap string Ptr * option error :=
  match GetConnection m tenant with
  | Ok _ => (m, Some ErrConnectorConnectionAlreadyAdded)
  | Err _ => (<[tenant := conn]> m, None)
  end.

Definition DelConnection (m : gmap string Ptr) (tenant : string)
  : gmap string Ptr * option error :=
  match GetConnection m tenant with
  | Err e => (m, Some e)
  | Ok _ => (delete tenant m, None)
  end.

End Connections.

(** The Docker engine answers every dial with the handle 7. *)
Definition dial_ok (address : string) : result nat := Ok 7.

Definition dial_refused (address : string) : result nat := Err "dial tcp: connection refused".

End Connector.

(** ** The user and namespace services *)

Module Services.

(** Errors of the store; [ErrNoDocuments] is the sentinel the services
    compare with. *)
Inductive StoreError :=
| ErrNoDocuments
| StoreFailure (msg : string).

#[global] Instance StoreError_eq_dec : EqDecision StoreError.
Proof. solve_decision. Defined.

(** [auth.Role] is a string type. *)
Definition Role := string.

(** [models.User], restricted to the fields the services read. *)
Module User.
Record t := mk {
  ID : string;
  Username : string;
  Email : string;
  Password : string;
  MaxNamespaces : Z;
  Namespaces : Z
}.
End User.

(** [models.Member] *)
Module Member.
Record t := mk {
  ID : string;
  Username : string;
  Role : Role
}.
End Member.

(** [models.Namespace], restricted to the fields the services read or
    write; [Settings] holds [SessionRecord] and [ConnectionAnnouncement]. *)
Module Namespace.
Record t := mk {
  Name : string;
  Owner : string;
  TenantID : string;
  Members : list Member.t;
  SessionRecord : bool;
  ConnectionAnnouncement : string;
  MaxDevices : Z
}.
Definition set_Members (n : t) (ms : list Member.t) : t :=
  mk (Name n) (Owner n) (TenantID n) ms (SessionRecord n) (ConnectionAnnouncement n)
     (MaxDevices n).
Definition set_TenantID (n : t) (tenant : string) : t :=
  mk (Name n) (Owner n) tenant (Members n) (SessionRecord n) (ConnectionAnnouncement n)
     (MaxDevices n).
Definition set_MaxDevices (n : t) (d : Z) : t :=
  mk (Name n) (Owner n) (TenantID n) (Members n) (SessionRecord n)
     (ConnectionAnnouncement n) d.
End Namespace.

(** [requests.UserDataUpdate] *)
Record UserDataUpdate := mkUserDataUpdate {
  reqName : string;
  reqUsername : string;
  reqEmail : string;
  reqRecoveryEmail : string
}.

(** [models.UserChanges]; an empty string is a field left out. *)
Record UserChanges := mkUserChanges {
  chName : string;
  chUsername : string;
  chEmail : string;
  chRecoveryEmail : string;
  chPassword : string
}.

(** [requests.NamespaceCreate] *)
Record NamespaceCreateReq := mkNamespaceCreateReq {
  ncName : string;
  ncTenantID : string
}.

(** The errors the services build, by constructor. *)
Inductive SvcError :=
| ErrUserNotFound (id : string) (cause : option StoreError)
| ErrBadRequest
| ErrUserDuplicated (conflicts : list string)
| ErrUserPasswordNotMatch
| ErrUserPasswordInvalid (cause : error)
| ErrUserUpdate (user : User.t) (cause : StoreError)
| ErrNamespaceLimitReached (limit : Z)
| ErrNamespaceInvalid (cause : option error)
| ErrNamespaceNotFound (name : string) (cause : option StoreError)
| ErrNamespaceDuplicated
| ErrNamespaceCreateStore (cause : StoreError)
| ErrNamespaceMemberFillData (cause : SvcError)
| ErrNamespaceMemberNotFound (id : string) (cause : option StoreError)
| ErrNamespaceMemberDuplicated (id : string)
| ErrNamespaceMemberInvalid (cause : option error)
| ErrRoleInvalid
| ErrStore (cause : StoreError).

(** The calls a service makes on the store and on its fellow services, in
    program order. *)
Inductive Call :=
| UserGetByID (id : string)
| UserGetByUsername (username : string)
| UserConflicts (email username : string)
| UserUpdate (id : string) (changes : UserChanges)
| NamespaceGet (tenant : string) (countDevices : bool)
| NamespaceGetByName (name : string)
| NamespaceCreate (ns : Namespace.t)
| NamespaceAddMember (tenant member : string) (role : Role)
| NamespaceRemoveMember (tenant member : string)
| NamespaceEditMember (tenant member : string) (role : Role)
| AuthUncacheToken (tenant member : string).

Definition is_write (c : Call) : bool :=
  match c with
  | UserUpdate _ _ | NamespaceCreate _ | NamespaceAddMember _ _ _
  | NamespaceRemoveMember _ _ | NamespaceEditMember _ _ _ => true
  | _ => false
  end.

Definition is_uncache (c : Call) : bool :=
  match c with AuthUncacheToken _ _ => true | _ => false end.

(** What a call of a service comes to: it returns, or it panics on a nil
    pointer. *)
Inductive Res (A : Type) :=
| Returns (a : A)
| Panics.
Arguments Returns {A} a.
Arguments Panics {A}.

(** The store and the other collaborators of the services.  A pointer
    result is an [option]; the store's results are taken as they come, a
    pointer and an error side by side. *)
Class Env := {
  st_UserGetByID : string -> option User.t * option StoreError;
  st_UserGetByUsername : string -> option User.t * option StoreError;
  st_UserConflicts : string -> string -> list string * bool;
  st_UserUpdate : string -> UserChanges -> option StoreError;
  st_NamespaceGet : string -> bool -> option Namespace.t * option StoreError;
  st_NamespaceGetByName : string -> option Namespace.t * option StoreError;
  st_NamespaceCreate : Namespace.t -> option StoreError;
  st_NamespaceAddMember : string -> string -> Role -> option Namespace.t * option StoreError;
  st_NamespaceRemoveMember : string -> string -> option Namespace.t * option StoreError;
  st_NamespaceEditMember : string -> string -> Role -> option StoreError;
  ToLower : string -> string;
  Compare : string -> string -> bool;
  HashUserPassword : string -> result string;
  validate_Namespace : Namespace.t -> bool * option error;
  validate_Member : Member.t -> bool * option error;
  uuid_Generate : string;
  IsCloud : bool;
  RoleOwner : Role;
  RoleFromString : string -> Role;
  HasAuthority : Role -> Role -> bool;
  FindMember : Namespace.t -> string -> option Member.t
}.

Section Services.
Context `{E : Env}.

(** [UpdateDataUser]: the conflicts, the error, and the calls made. *)
Definition UpdateDataUser (userID : string) (req : UserDataUpdate)
  : Res (option (list string) * option SvcError) * list Call :=
  let c1 := [UserGetByID userID] in
  match st_UserGetByID userID with
  | (_, Some _) => (Returns (None, Some (ErrUserNotFound userID None)), c1)
  | (None, None) => (Panics, c1)
  | (Some user, None) =>
      if bool_decide (reqRecoveryEmail req = User.Email user)
         || bool_decide (reqRecoveryEmail req = reqEmail req)
      then (Returns (Some ["email"; "recovery_email"], Some ErrBadRequest), c1)
      else
        let c2 := c1 ++ [UserConflicts (reqEmail req) (reqUsername req)] in
        let '(conflicts, has) := st_UserConflicts (reqEmail req) (reqUsername req) in
        if has then (Returns (Some conflicts, Some (ErrUserDuplicated conflicts)), c2)
        else
          let changes := mkUserChanges (reqName req) (reqUsername req) (reqEmail req)
                                       (ToLower (reqRecoveryEmail req)) "" in
          (Returns (None, ErrStore <$> st_UserUpdate userID changes),
           c2 ++ [UserUpdate userID changes])
  end.

(** [UpdatePasswordUser] *)
Definition UpdatePasswordUser (id currentPassword newPassword : string)
  : Res (option SvcError) * list Call :=
  let c1 := [UserGetByID id] in
  match st_UserGetByID id with
  | (None, err) => (Returns (Some (ErrUserNotFound id err)), c1)
  | (Some user, _) =>
      if negb (Compare (User.Password user) currentPassword)
      then (Returns (Some ErrUserPasswordNotMatch), c1)
      else
        match HashUserPassword newPassword with
        | Err e => (Returns (Some (ErrUserPasswordInvalid e)), c1)
        | Ok hash =>
            let changes := mkUserChanges "" "" "" "" hash in
            (Returns (ErrUserUpdate user <$> st_UserUpdate id changes),
             c1 ++ [UserUpdate id changes])
        end
  end.

(** [fillMembersData]: the members filled so far are [done_], in reverse. *)
Fixpoint fill_members (members : list Member.t) (done_ : list Member.t) (calls : list Call)
  : (option (list Member.t) * option SvcError) * list Call :=
  match members with
  | [] => ((Some (rev done_), None), calls)
  | member :: rest =>
      let calls := calls ++ [UserGetByID (Member.ID member)] in
      match st_UserGetByID (Member.ID member) with
      | (Some user, None) =>
          fill_members rest
            (Member.mk (User.ID user) (User.Username user) (Member.Role member) :: done_)
            calls
      | (_, err) => ((None, Some (ErrUserNotFound (Member.ID member) err)), calls)
      end
  end.

Definition fillMembersData (members : list Member.t)
  : (option (list Member.t) * option SvcError) * list Call :=
  fill_members members [] [].

(** [GetNamespace] *)
Definition GetNamespace (tenantID : string)
  : Res (option Namespace.t * option SvcError) * list Call :=
  let c1 := [NamespaceGet tenantID true] in
  match st_NamespaceGet tenantID true with
  | (Some namespace, None) =>
      match fillMembersData (Namespace.Members namespace) with
      | ((_, Some err), calls) =>
          (Returns (None, Some (ErrNamespaceMemberFillData err)), c1 ++ calls)
      | ((members, None), calls) =>
          (Returns (Some (Namespace.set_Members namespace (default [] members)), None),
           c1 ++ calls)
      end
  | (_, err) => (Returns (None, Some (ErrNamespaceNotFound tenantID err)), c1)
  end.

(** [CreateNamespace] *)
Definition CreateNamespace (namespace : NamespaceCreateReq) (userID : string)
  : Res (option Namespace.t * option SvcError) * list Call :=
  let c1 := [UserGetByID userID] in
  match st_UserGetByID userID with
  | (Some user, None) =>
      if bool_decide (0 < User.MaxNamespaces user)%Z
         && bool_decide (User.MaxNamespaces user <= User.Namespaces user)%Z
      then (Returns (None, Some (ErrNamespaceLimitReached (User.MaxNamespaces user))), c1)
      else
        let ns := Namespace.mk (ToLower (ncName namespace)) (User.ID user)
                               (ncTenantID namespace)
                               [Member.mk (User.ID user) "" RoleOwner]
                               true "" 0 in
        let '(ok, verr) := validate_Namespace ns in
        if negb ok || bool_decide (verr <> None)
        then (Returns (None, Some (ErrNamespaceInvalid verr)), c1)
        else
          let ns := if bool_decide (ncTenantID namespace = "")
                    then Namespace.set_TenantID ns uuid_Generate else ns in
          let ns := Namespace.set_MaxDevices ns (if IsCloud then 3 else -1)%Z in
          let c2 := c1 ++ [NamespaceGetByName (Namespace.Name ns)] in
          let '(other, err) := st_NamespaceGetByName (Namespace.Name ns) in
          if bool_decide (err <> None) && bool_decide (err <> Some ErrNoDocuments)
          then (Returns (None, Some (ErrNamespaceNotFound (Namespace.Name ns) err)), c2)
          else
            match other with
            | Some _ => (Returns (None, Some ErrNamespaceDuplicated), c2)
            | None =>
                let c3 := c2 ++ [NamespaceCreate ns] in
                match st_NamespaceCreate ns with
                | Some e => (Returns (None, Some (ErrNamespaceCreateStore e)), c3)
                | None => (Returns (Some ns, None), c3)
                end
            end
  | (_, err) => (Returns (None, Some (ErrUserNotFound userID err)), c1)
  end.

(** [AddNamespaceUser] *)
Definition AddNamespaceUser (memberUsername role tenantID userID : string)
  : Res (option Namespace.t * option SvcError) * list Call :=
  let memberRole := RoleFromString role in
  let '(ok, verr) := validate_Member (Member.mk "" memberUsername memberRole) in
  if negb ok || bool_decide (verr <> None)
  then (Returns (None, Some (ErrNamespaceMemberInvalid verr)), [])
  else
    let c1 := [NamespaceGet tenantID true] in
    match st_NamespaceGet tenantID true with
    | (Some namespace, None) =>
        let c2 := c1 ++ [UserGetByID userID] in
        match st_UserGetByID userID with
        | (Some user, None) =>
            match FindMember namespace (User.ID user) with
            | None =>
                (Returns (None, Some (ErrNamespaceMemberNotFound (User.ID user) None)), c2)
            | Some active =>
                let c3 := c2 ++ [UserGetByUsername memberUsername] in
                match st_UserGetByUsername memberUsername with
                | (_, Some e) =>
                    (Returns (None, Some (ErrUserNotFound memberUsername (Some e))), c3)
                | (None, None) => (Panics, c3)
                | (Some passive, None) =>
                    match FindMember namespace (User.ID passive) with
                    | Some _ =>
                        (Returns (None, Some (ErrNamespaceMemberDuplicated (User.ID passive))),
                         c3)
                    | None =>
                        if negb (HasAuthority (Member.Role active) memberRole)
                        then (Returns (None, Some ErrRoleInvalid), c3)
                        else
                          let '(ns, err) :=
                            st_NamespaceAddMember tenantID (User.ID passive) memberRole in
                          (Returns (ns, ErrStore <$> err),
                           c3 ++ [NamespaceAddMember tenantID (User.ID passive) memberRole])
                    end
                end
            end
        | (_, err) => (Returns (None, Some (ErrUserNotFound userID err)), c2)
        end
    | (_, err) => (Returns (None, Some (ErrNamespaceNotFound tenantID err)), c1)
    end.

(** The checks [RemoveNamespaceUser] and [EditNamespaceUser] share (the
    two functions repeat them line by line): namespace, acting user and
    member are fetched, both must be members of the namespace, and the
    acting member's role must have authority over the member's role.  On
    success the namespace and the member's user are handed on. *)
Definition member_checks (tenantID memberID userID : string)
  : Res (SvcError + (Namespace.t * User.t)) * list Call :=
  let c1 := [NamespaceGet tenantID true] in
  match st_NamespaceGet tenantID true with
  | (_, Some e) => (Returns (inl (ErrNamespaceNotFound tenantID (Some e))), c1)
  | (namespace, None) =>
      let c2 := c1 ++ [UserGetByID userID] in
      match st_UserGetByID userID with
      | (_, Some e) => (Returns (inl (ErrUserNotFound userID (Some e))), c2)
      | (user, None) =>
          let c3 := c2 ++ [UserGetByID memberID] in
          match st_UserGetByID memberID with
          | (_, Some e) => (Returns (inl (ErrUserNotFound memberID (Some e))), c3)
          | (member, None) =>
              match namespace, user with
              | Some namespace, Some user =>
                  match FindMember namespace (User.ID user) with
                  | None =>
                      (Returns (inl (ErrNamespaceMemberNotFound (User.ID user) None)), c3)
                  | Some active =>
                      match member with
                      | None => (Panics, c3)
                      | Some member =>
                          match FindMember namespace (User.ID member) with
                          | None =>
                              (Returns (inl (ErrNamespaceMemberNotFound (User.ID member) None)),
                               c3)
                          | Some passive =>
                              if negb (HasAuthority (Member.Role active) (Member.Role passive))
                              then (Returns (inl ErrRoleInvalid), c3)
                              else (Returns (inr (namespace, member)), c3)
                          end
                      end
                  end
              | _, _ => (Panics, c3)
              end
          end
      end
  end.

(** [RemoveNamespaceUser] *)
Definition RemoveNamespaceUser (tenantID memberID userID : string)
  : Res (option Namespace.t * option SvcError) * list Call :=
  match member_checks tenantID memberID userID with
  | (Panics, calls) => (Panics, calls)
  | (Returns (inl err), calls) => (Returns (None, Some err), calls)
  | (Returns (inr (namespace, member)), calls) =>
      let calls := calls ++ [NamespaceRemoveMember tenantID (User.ID member)] in
      match st_NamespaceRemoveMember tenantID (User.ID member) with
      | (_, Some e) => (Returns (None, Some (ErrStore e)), calls)
      | (removed, None) =>
          (Returns (removed, None),
           calls ++ [AuthUncacheToken (Namespace.TenantID namespace) (User.ID member)])
      end
  end.

(** [EditNamespaceUser] *)
Definition EditNamespaceUser (tenantID userID memberID memberNewRole : string)
  : Res (option SvcError) * list Call :=
  match member_checks tenantID memberID userID with
  | (Panics, calls) => (Panics, calls)
  | (Returns (inl err), calls) => (Returns (Some err), calls)
  | (Returns (inr (namespace, member)), calls) =>
      let role := RoleFromString memberNewRole in
      let calls := calls ++ [NamespaceEditMember tenantID (User.ID member) role] in
      match st_NamespaceEditMember tenantID (User.ID member) role with
      | Some e => (Returns (Some (ErrStore e)), calls)
      | None =>
          (Returns None,
           calls ++ [AuthUncacheToken (Namespace.TenantID namespace) (User.ID member)])
      end
  end.

(** *** Vocabulary of the properties *)

(** A member with the data of its user filled in, when the store has the
    user. *)
Definition filled (member : Member.t) : option Member.t :=
  match st_UserGetByID (Member.ID member) with
  | (Some user, None) =>
      Some (Member.mk (User.ID user) (User.Username user) (Member.Role member))
  | _ => None
  end.

Definition writes (calls : list Call) : list Call := List.filter is_write calls.

Definition uncaches (calls : list Call) : list Call := List.filter is_uncache calls.

(** The namespace [CreateNamespace] builds for a user. *)
Definition new_namespace (namespace : NamespaceCreateReq) (user : User.t) : Namespace.t :=
  Namespace.mk (ToLower (ncName namespace)) (User.ID user)
               (if bool_decide (ncTenantID namespace = "") then uuid_Generate
                else ncTenantID namespace)
               [Member.mk (User.ID user) "" RoleOwner]
               true "" (if IsCloud then 3 else -1)%Z.

(** The namespace as it is when the validator sees it. *)
Definition draft_namespace (namespace : NamespaceCreateReq) (user : User.t) : Namespace.t :=
  Namespace.mk (ToLower (ncName namespace)) (User.ID user) (ncTenantID namespace)
               [Member.mk (User.ID user) "" RoleOwner] true "" 0.

Definition limit_reached (user : User.t) : bool :=
  bool_decide (0 < User.MaxNamespaces user)%Z
  && bool_decide (User.MaxNamespaces user <= User.Namespaces user)%Z.

End Services.

(** *** A concrete store *)

Definition alice : User.t := User.mk "u1" "alice" "alice@example.com" "h(secret)" 3 1.
Definition bob : User.t := User.mk "u2" "bob" "bob@example.com" "h(hunter2)" 1 1.
Definition carol : User.t := User.mk "u3" "carol" "carol@example.com" "h(swordfish)" (-1) 10.

Definition dev_namespace : Namespace.t :=
  Namespace.mk "dev" "u1" "t1"
               [Member.mk "u1" "" "owner"; Member.mk "u2" "" "operator"] true "" (-1).

Definition demo_user_by_id (id : string) : option User.t * option StoreError :=
  if String.eqb id "u1" then (Some alice, None)
  else if String.eqb id "u2" then (Some bob, None)
  else if String.eqb id "u3" then (Some carol, None)
  else (None, Some ErrNoDocuments).

Definition demo_user_by_name (name : string) : option User.t * option StoreError :=
  if String.eqb name "alice" then (Some alice, None)
  else if String.eqb name "bob" then (Some bob, None)
  else if String.eqb name "carol" then (Some carol, None)
  else (None, Some ErrNoDocuments).

Definition demo_namespace_get (tenant : string) (countDevices : bool)
  : option Namespace.t * option StoreError :=
  if String.eqb tenant "t1" then (Some dev_namespace, None) else (None, Some ErrNoDocuments).

Definition demo_namespace_by_name (name : string) : option Namespace.t * option StoreError :=
  if String.eqb name "dev" then (Some dev_namespace, None) else (None, Some ErrNoDocuments).

Definition role_rank (r : Role) : nat :=
  if String.eqb r "owner" then 3
  else if String.eqb r "administrator" then 2
  else if String.eqb r "operator" then 1
  else 0.

Definition demo_find_member (n : Namespace.t) (id : string) : option Member.t :=
  List.find (fun m => String.eqb (Member.ID m) id) (Namespace.Members n).

Definition demo_env : Env := {|
  st_UserGetByID := demo_user_by_id;
  st_UserGetByUsername := demo_user_by_name;
  st_UserConflicts := fun email username =>
    if String.eqb username "bob" then (["username"], true) else ([], false);
  st_UserUpdate := fun _ _ => None;
  st_NamespaceGet := demo_namespace_get;
  st_NamespaceGetByName := demo_namespace_by_name;
  st_NamespaceCreate := fun _ => None;
  st_NamespaceAddMember := fun _ _ _ => (Some dev_namespace, None);
  st_NamespaceRemoveMember := fun _ _ => (Some dev_namespace, None);
  st_NamespaceEditMember := fun _ _ _ => None;
  ToLower := fun s => s;
  Compare := fun hash plain => String.eqb hash (String.append "h(" (String.append plain ")"));
  HashUserPassword := fun plain =>
    if String.eqb plain "" then Err "empty password"
    else Ok (String.append "h(" (String.append plain ")"));
  validate_Namespace := fun _ => (true, None);
  validate_Member := fun _ => (true, None);
  uuid_Generate := "00000000-0000-4000-8000-000000000000";
  IsCloud := false;
  RoleOwner := "owner";
  RoleFromString := fun r => r;
  HasAuthority := fun r1 r2 => bool_decide (role_rank r2 < role_rank r1);
  FindMember := demo_find_member
|}.

End Services.

(** ** Permissions of the roles ([guard]) *)

Module Guard.

(** [type Permissions []int] *)
Definition Permissions := list Z.

(** The constants are declared with [iota + 1], one per line of the block. *)
Definition iota_plus_1 (iota : nat) : Z := Z.of_nat iota + 1.

Definition DeviceAccept : Z := iota_plus_1 0.
Definition DeviceReject : Z := iota_plus_1 1.
Definition DeviceUpdate : Z := iota_plus_1 2.
Definition DeviceRemove : Z := iota_plus_1 3.
Definition DeviceConnect : Z := iota_plus_1 4.
Definition DeviceRename : Z := iota_plus_1 5.
Definition DeviceDetails : Z := iota_plus_1 6.
Definition DeviceCreateTag : Z := iota_plus_1 7.
Definition DeviceUpdateTag : Z := iota_plus_1 8.
Definition DeviceRemoveTag : Z := iota_plus_1 9.
Definition DeviceRenameTag : Z := iota_plus_1 10.
Definition DeviceDeleteTag : Z := iota_plus_1 11.
Definition SessionPlay : Z := iota_plus_1 12.
Definition SessionClose : Z := iota_plus_1 13.
Definition SessionRemove : Z := iota_plus_1 14.
Definition SessionDetails : Z := iota_plus_1 15.
Definition FirewallCreate : Z := iota_plus_1 16.
Definition FirewallEdit : Z := iota_plus_1 17.
Definition FirewallRemove : Z := iota_plus_1 18.
Definition FirewallAddTag : Z := iota_plus_1 19.
Definition FirewallRemoveTag : Z := iota_plus_1 20.
Definition FirewallUpdateTag : Z := iota_plus_1 21.
Definition PublicKeyCreate : Z := iota_plus_1 22.
Definition PublicKeyEdit : Z := iota_plus_1 23.
Definition PublicKeyRemove : Z := iota_plus_1 24.
Definition PublicKeyAddTag : Z := iota_plus_1 25.
Definition PublicKeyRemoveTag : Z := iota_plus_1 26.
Definition PublicKeyUpdateTag : Z := iota_plus_1 27.
Definition NamespaceUpdate : Z := iota_plus_1 28.
Definition NamespaceAddMember : Z := iota_plus_1 29.
Definition NamespaceRemoveMember : Z := iota_plus_1 30.
Definition NamespaceEditMember : Z := iota_plus_1 31.
Definition NamespaceEnableSessionRecord : Z := iota_plus_1 32.
Definition NamespaceDelete : Z := iota_plus_1 33.
Definition BillingCreateCustomer : Z := iota_plus_1 34.
Definition BillingChooseDevices : Z := iota_plus_1 35.
Definition BillingAddPaymentMethod : Z := iota_plus_1 36.
Definition BillingUpdatePaymentMethod : Z := iota_plus_1 37.
Definition BillingRemovePaymentMethod : Z := iota_plus_1 38.
Definition BillingCancelSubscription : Z := iota_plus_1 39.
Definition BillingCreateSubscription : Z := iota_plus_1 40.
Definition BillingGetPaymentMethod : Z := iota_plus_1 41.
Definition BillingGetSubscription : Z := iota_plus_1 42.
Definition APIKeyCreate : Z := iota_plus_1 43.
Definition APIKeyEdit : Z := iota_plus_1 44.
Definition APIKeyDelete : Z := iota_plus_1 45.
Definition ConnectorUpdate : Z := iota_plus_1 46.
Definition ConnectorSet : Z := iota_plus_1 47.
Definition ConnectorStatus : Z := iota_plus_1 48.
Definition ConnectorAction : Z := iota_plus_1 49.

Definition observerPermissions : Permissions := [
  DeviceConnect;
  DeviceDetails;
  SessionDetails
].

Definition operatorPermissions : Permissions := [
  DeviceAccept;
  DeviceReject;
  DeviceConnect;
  DeviceRename;
  DeviceDetails;
  DeviceUpdate;
  DeviceCreateTag;
  DeviceUpdateTag;
  DeviceRemoveTag;
  DeviceRenameTag;
  DeviceDeleteTag;
  SessionDetails
].

Definition adminPermissions : Permissions := [
  DeviceAccept;
  DeviceReject;
  DeviceRemove;
  DeviceConnect;
  DeviceRename;
  DeviceDetails;
  DeviceUpdate;
  DeviceCreateTag;
  DeviceUpdateTag;
  DeviceRemoveTag;
  DeviceRenameTag;
  DeviceDeleteTag;
  DeviceUpdate;
  SessionPlay;
  SessionClose;
  SessionRemove;
  SessionDetails;
  FirewallCreate;
  FirewallEdit;
  FirewallRemove;
  FirewallAddTag;
  FirewallRemoveTag;
  FirewallUpdateTag;
  PublicKeyCreate;
  PublicKeyEdit;
  PublicKeyRemove;
  PublicKeyAddTag;
  PublicKeyRemoveTag;
  PublicKeyUpdateTag;
  NamespaceUpdate;
  NamespaceAddMember;
  NamespaceRemoveMember;
  NamespaceEditMember;
  NamespaceEnableSessionRecord;
  APIKeyCreate;
  APIKeyEdit;
  APIKeyDelete;
  ConnectorUpdate;
  ConnectorSet;
  ConnectorStatus;
  ConnectorAction
].

Definition ownerPermissions : Permissions := [
  DeviceAccept;
  DeviceReject;
  DeviceRemove;
  DeviceConnect;
  DeviceRename;
  DeviceDetails;
  DeviceUpdate;
  DeviceCreateTag;
  DeviceUpdateTag;
  DeviceRemoveTag;
  DeviceRenameTag;
  DeviceDeleteTag;
  DeviceUpdate;
  SessionPlay;
  SessionClose;
  SessionRemove;
  SessionDetails;
  FirewallCreate;
  FirewallEdit;
  FirewallRemove;
  FirewallAddTag;
  FirewallRemoveTag;
  FirewallUpdateTag;
  PublicKeyCreate;
  PublicKeyEdit;
  PublicKeyRemove;
  PublicKeyAddTag;
  PublicKeyRemoveTag;
  PublicKeyUpdateTag;
  NamespaceUpdate;
  NamespaceAddMember;
  NamespaceRemoveMember;
  NamespaceEditMember;
  NamespaceEnableSessionRecord;
  NamespaceDelete;
  BillingCreateCustomer;
  BillingChooseDevices;
  BillingAddPaymentMethod;
  BillingUpdatePaymentMethod;
  BillingRemovePaymentMethod;
  BillingCancelSubscription;
  BillingCreateSubscription;
  BillingGetSubscription;
  APIKeyCreate;
  APIKeyEdit;
  APIKeyDelete;
  ConnectorUpdate;
  ConnectorSet;
  ConnectorStatus;
  ConnectorAction
].

(** Whether a list of permissions grants a permission. *)
Definition grants (ps : Permissions) (p : Z) : bool := bool_decide (p ∈ ps).

(** Every permission of [lower] is one of [higher]. *)
Definition included (lower higher : Permissions) : bool :=
  forallb (grants higher) lower.

(** The billing permissions. *)
Definition billing : Permissions := [
  BillingCreateCustomer;
  BillingChooseDevices;
  BillingAddPaymentMethod;
  BillingUpdatePaymentMethod;
  BillingRemovePaymentMethod;
  BillingCancelSubscription;
  BillingCreateSubscription;
  BillingGetPaymentMethod;
  BillingGetSubscription
].

End Guard.

(** ** The heartbeat worker *)

Module Heartbeat.

(** [strings.Split(s, sep)] for a separator of one character: the pieces of
    [s] between the occurrences of the separator, at least one piece. *)
Fixpoint Split (s : string) (sep : ascii) : list string :=
  match s with
  | EmptyString => [EmptyString]
  | String c rest =>
      if Ascii.eqb c sep then EmptyString :: Split rest sep
      else match Split rest sep with
           | piece :: pieces => String c piece :: pieces
           | [] => [String c EmptyString]
           end
  end.

Definition digit (c : ascii) : option Z :=
  let n := Z.of_nat (nat_of_ascii c) in
  if bool_decide (48 <= n <= 57)%Z then Some (n - 48)%Z else None.

Fixpoint digits (s : string) (acc : Z) : option Z :=
  match s with
  | EmptyString => Some acc
  | String c rest =>
      match digit c with
      | Some d => digits rest (acc * 10 + d)%Z
      | None => None
      end
  end.

(** [strconv.ParseInt(s, 10, 64)], [None] when it returns an error: an
    optional sign, then at least one decimal digit and nothing else, and a
    value that fits 64 bits. *)
Definition ParseInt (s : string) : option Z :=
  match s with
  | EmptyString => None
  | String c rest =>
      let '(neg, body) :=
        if Ascii.eqb c "+" then (false, rest)
        else if Ascii.eqb c "-" then (true, rest)
        else (false, s) in
      match body with
      | EmptyString => None
      | _ =>
          match digits body 0 with
          | None => None
          | Some un =>
              if neg then (if bool_decide (un <= 2 ^ 63)%Z then Some (- un)%Z else None)
              else (if bool_decide (un < 2 ^ 63)%Z then Some un else None)
          end
      end
  end.

(** [models.ConnectedDevice]; [LastSeen] is [time.Unix(lastSeen, 0)], in
    seconds. *)
Record ConnectedDevice := mkConnectedDevice {
  UID : string;
  TenantID : string;
  LastSeen : Z
}.

(** The body of the loop over the lines of a task: the device of the line,
    or the warning logged when the line is skipped. *)
Definition parse_line (line : string) : result ConnectedDevice :=
  match Split line "=" with
  | [entry; stamp] =>
      match ParseInt stamp with
      | None => Err "failed to parse timestamp to integer."
      | Some lastSeen =>
          match Split entry ":" with
          | [tenant; uid] => Ok (mkConnectedDevice uid tenant lastSeen)
          | _ => Err "failed to parse queue payload due to lack of ':'."
          end
      end
  | _ => Err "failed to parse queue payload due to lack of '='."
  end.

(** The devices of a task, from the lines its scanner yields. *)
Definition devices_of (lines : list string) : list ConnectedDevice :=
  omap (fun line => match parse_line line with Ok d => Some d | Err _ => None end) lines.

(** [HeartBeatWorker.Init]: the calls of [DeviceSetOnline], one per task
    received; [scan] is what the line scanner yields for a payload. *)
Definition Init (scan : string -> list string) (tasks : list string)
  : list (list ConnectedDevice) :=
  (fun payload => devices_of (scan payload)) <$> tasks.

(** The character does not occur in the string. *)
Fixpoint lacks (c : ascii) (s : string) : bool :=
  match s with
  | EmptyString => true
  | String c' rest => negb (Ascii.eqb c' c) && lacks c rest
  end.

End Heartbeat.

(** * Properties of the authenticator *)

Section AuthProperties.
Import Auth.
Context `{C : Collaborators}.

Lemma build_lookup_no_key_call tag :
  Forall (fun c => is_key_call c = false) (build_lookup tag).2.
Proof.
  unfold build_lookup.
  destruct (IsSSHID tag).
  - destruct (SplitSSHID tag) as [[ns host]|e]; simpl; constructor.
  - destruct (GetDevice (Data tag)); simpl; repeat constructor.
Qed.

(** The verdict for a key that is not the magic key, once the device is
    resolved: the outcome of the two key calls decides. *)
Lemma PublicKey_evaluated ctx pubKey sshid tag device :
  (forall magic, magicPubKey = Ok magic ->
                 FingerprintLegacyMD5 magic <> FingerprintLegacyMD5 pubKey) ->
  identifier_recovered ctx = Some sshid ->
  NewTarget sshid = Ok tag ->
  device_resolved tag = Some device ->
  accepted (PublicKey ctx pubKey)
  = match magicPubKey with
    | Ok _ => key_lookup_ok (FingerprintLegacyMD5 pubKey) device
              && key_evaluation_ok (FingerprintLegacyMD5 pubKey) device tag
    | Err _ => false
    end.
Proof.
  intros Hmagic Hid Htag Hdev.
  unfold PublicKey, identifier_recovered, device_resolved in *.
  rewrite Hid, Htag.
  destruct (build_lookup tag) as [[lookup|msg] calls]; [|done].
  destruct (DeviceLookup lookup) as [dev errs].
  case_bool_decide; [done|]. injection Hdev as ->.
  destruct magicPubKey as [magic|e] eqn:Hm; [|done].
  rewrite bool_decide_true by (by apply Hmagic).
  unfold evaluate, key_lookup_ok, key_evaluation_ok.
  destruct (GetPublicKey _ _); simpl; [|done].
  destruct (EvaluateKey _ _ _) as [ok [err|]]; destruct ok; simpl; done.
Qed.

(** Rejections that do not depend on the key. *)
Lemma PublicKey_no_identifier ctx pubKey :
  identifier_recovered ctx = None -> accepted (PublicKey ctx pubKey) = false.
Proof. unfold PublicKey, identifier_recovered. by intros ->. Qed.

Lemma PublicKey_bad_target ctx pubKey sshid e :
  identifier_recovered ctx = Some sshid -> NewTarget sshid = Err e ->
  accepted (PublicKey ctx pubKey) = false.
Proof. unfold PublicKey, identifier_recovered. by intros -> ->. Qed.

Lemma PublicKey_no_device ctx pubKey sshid tag :
  identifier_recovered ctx = Some sshid -> NewTarget sshid = Ok tag ->
  device_resolved tag = None ->
  accepted (PublicKey ctx pubKey) = false.
Proof.
  unfold PublicKey, identifier_recovered, device_resolved. intros -> ->.
  destruct (build_lookup tag) as [[lookup|msg] calls]; [|done].
  destruct (DeviceLookup lookup) as [dev errs].
  by case_bool_decide.
Qed.

(** The callback accepts only after it has gone through every stage. *)
Lemma PublicKey_accept_stages ctx pubKey :
  accepted (PublicKey ctx pubKey) = true ->
  exists sshid tag device,
    identifier_recovered ctx = Some sshid /\ NewTarget sshid = Ok tag /\
    device_resolved tag = Some device.
Proof.
  intros Hacc.
  destruct (identifier_recovered ctx) as [sshid|] eqn:Hid;
    [|by rewrite PublicKey_no_identifier in Hacc].
  destruct (NewTarget sshid) as [tag|e] eqn:Htag;
    [|by rewrite (PublicKey_bad_target _ _ _ _ Hid Htag) in Hacc].
  destruct (device_resolved tag) as [device|] eqn:Hdev;
    [|by rewrite (PublicKey_no_device _ _ _ _ Hid Htag Hdev) in Hacc].
  by exists sshid, tag, device.
Qed.

(** C3. For a presented key whose fingerprint is not the magic key's, the
    callback accepts exactly when it reaches the key stages (the identifier is
    recovered, the target parses, the device is resolved, the magic key is
    available for the comparison) and there [GetPublicKey] succeeds and
    [EvaluateKey] returns true without an error.  A failure of any one stage
    (identifier recovery, target parsing, device lookup, key lookup, key
    evaluation) makes it reject. *)
Theorem PublicKey_non_magic_accept_iff ctx pubKey :
  (forall magic, magicPubKey = Ok magic ->
                 FingerprintLegacyMD5 magic <> FingerprintLegacyMD5 pubKey) ->
  let fingerprint := FingerprintLegacyMD5 pubKey in
  (accepted (PublicKey ctx pubKey) = true <->
   exists sshid tag device magic,
     identifier_recovered ctx = Some sshid /\ NewTarget sshid = Ok tag /\
     device_resolved tag = Some device /\ magicPubKey = Ok magic /\
     is_err (GetPublicKey fingerprint (TenantID device)) = false /\
     EvaluateKey fingerprint device (Username tag) = (true, None)) /\
  (identifier_recovered ctx = None -> accepted (PublicKey ctx pubKey) = false) /\
  (forall sshid,
     identifier_recovered ctx = Some sshid ->
     (is_err (NewTarget sshid) = true -> accepted (PublicKey ctx pubKey) = false) /\
     forall tag, NewTarget sshid = Ok tag ->
       (device_resolved tag = None -> accepted (PublicKey ctx pubKey) = false) /\
       forall device, device_resolved tag = Some device ->
         (is_err (GetPublicKey fingerprint (TenantID device)) = true ->
          accepted (PublicKey ctx pubKey) = false) /\
         (EvaluateKey fingerprint device (Username tag) <> (true, None) ->
          accepted (PublicKey ctx pubKey) = false)).
Proof.
  intros Hmagic fingerprint. split; [split|split].
  - intros Hacc.
    destruct (PublicKey_accept_stages _ _ Hacc) as (sshid & tag & device & Hid & Htag & Hdev).
    rewrite (PublicKey_evaluated _ _ _ _ _ Hmagic Hid Htag Hdev) in Hacc.
    destruct magicPubKey as [magic|] eqn:Hm; [|done].
    apply andb_prop in Hacc as [Hl He].
    exists sshid, tag, device, magic. repeat split; try done.
    + unfold key_lookup_ok in Hl. by destruct (is_err _).
    + unfold key_evaluation_ok in He. fold fingerprint in He.
      destruct (EvaluateKey _ _ _) as [ok err].
      apply andb_prop in He as [-> Herr]. apply bool_decide_eq_true in Herr. by subst.
  - intros (sshid & tag & device & magic & Hid & Htag & Hdev & Hm & Hl & He).
    rewrite (PublicKey_evaluated _ _ _ _ _ Hmagic Hid Htag Hdev), Hm.
    unfold key_lookup_ok, key_evaluation_ok. fold fingerprint. by rewrite Hl, He.
  - apply PublicKey_no_identifier.
  - intros sshid Hid. split.
    { destruct (NewTarget sshid) eqn:Htag; [done|].
      intros _. by eapply PublicKey_bad_target. }
    intros tag Htag. split; [by apply PublicKey_no_device with sshid|].
    intros device Hdev.
    rewrite (PublicKey_evaluated _ _ _ _ _ Hmagic Hid Htag Hdev).
    unfold key_lookup_ok, key_evaluation_ok. fold fingerprint.
    split; intros H; destruct magicPubKey; try done.
    + by rewrite H.
    + destruct (EvaluateKey _ _ _) as [[] [err|]]; simpl; try done;
        by rewrite andb_false_r.
Qed.

(** C4. For a presented key whose fingerprint equals the magic key's, once
    the device is resolved the callback accepts, records the fingerprint in
    the context, and among the API calls it made there is neither a
    [GetPublicKey] nor an [EvaluateKey]. *)
Theorem PublicKey_magic_accepts ctx pubKey magic sshid tag device :
  magicPubKey = Ok magic ->
  FingerprintLegacyMD5 magic = FingerprintLegacyMD5 pubKey ->
  identifier_recovered ctx = Some sshid ->
  NewTarget sshid = Ok tag ->
  device_resolved tag = Some device ->
  accepted (PublicKey ctx pubKey) = true /\
  Forall (fun c => is_key_call c = false) (api_calls (PublicKey ctx pubKey)) /\
  ctx_after (PublicKey ctx pubKey) !! StringKey "public_key"
  = Some (VString (FingerprintLegacyMD5 pubKey)).
Proof.
  intros Hm Hfp Hid Htag Hdev.
  unfold PublicKey, identifier_recovered, device_resolved in *.
  rewrite Hid, Htag.
  pose proof (build_lookup_no_key_call tag) as Hcalls.
  destruct (build_lookup tag) as [[lookup|msg] calls]; [|done].
  destruct (DeviceLookup lookup) as [dev errs].
  case_bool_decide; [done|]. rewrite Hm.
  rewrite bool_decide_false by (by intros ?). simpl.
  split; [done|]. split; [|by rewrite lookup_insert_eq].
  apply Forall_app. split; [done|]. by repeat constructor.
Qed.

End AuthProperties.

(** The key calls are never made for the magic key, whatever the earlier
    stages did. *)
Lemma PublicKey_magic_no_key_call `{C : Auth.Collaborators} ctx pubKey magic :
  Auth.magicPubKey = Ok magic ->
  Auth.FingerprintLegacyMD5 magic = Auth.FingerprintLegacyMD5 pubKey ->
  Forall (fun c => Auth.is_key_call c = false) (Auth.api_calls (Auth.PublicKey ctx pubKey)).
Proof.
  intros Hm Hfp. unfold Auth.PublicKey.
  destruct (as_string _); [|by constructor].
  destruct (Auth.NewTarget _) as [tag|]; [|by constructor].
  pose proof (build_lookup_no_key_call tag) as Hcalls.
  destruct (Auth.build_lookup tag) as [[lookup|msg] calls]; [|done].
  destruct (Auth.DeviceLookup lookup) as [dev errs].
  assert (Forall (fun c => Auth.is_key_call c = false)
                 (calls ++ [Auth.CallDeviceLookup lookup])) as Hall.
  { apply Forall_app. split; [done|]. by repeat constructor. }
  case_bool_decide; [done|]. rewrite Hm.
  by rewrite bool_decide_false by (by intros ?).
Qed.

(** The magic key on the composite identifier ["example.mydevice"]: the
    device is looked up by namespace and hostname and the callback
    accepts. *)
Lemma PublicKey_magic_accepts_witness :
  Auth.accepted (@Auth.PublicKey Auth.demo (Auth.demo_ctx "example.mydevice") "magic") = true /\
  Forall (fun c => Auth.is_key_call c = false)
         (Auth.api_calls (@Auth.PublicKey Auth.demo (Auth.demo_ctx "example.mydevice") "magic")) /\
  Auth.ctx_after (@Auth.PublicKey Auth.demo (Auth.demo_ctx "example.mydevice") "magic")
    !! StringKey "public_key" = Some (VString "magic").
Proof.
  apply (@PublicKey_magic_accepts Auth.demo (Auth.demo_ctx "example.mydevice")
           "magic" "magic" "example.mydevice"
           (Auth.mkTarget "example.mydevice" "root") Auth.mydevice);
    reflexivity.
Defined.

(** An accepted and a rejected evaluation with the concrete collaborators:
    ["alice-key"] is registered and authorises [root]; it does not authorise
    [guest]. *)
Lemma PublicKey_non_magic_accept_iff_witness :
  Auth.accepted (@Auth.PublicKey Auth.demo (Auth.demo_ctx "example.mydevice") "alice-key") = true /\
  Auth.accepted (@Auth.PublicKey Auth.demo (Auth.demo_ctx "guest@example.mydevice") "alice-key") = false.
Proof.
  assert (forall magic : string, Ok (A:=string) "magic" = Ok magic -> magic <> "alice-key") as Hne.
  { intros magic Hm. injection Hm as <-. discriminate. }
  split.
  - apply (proj1 (@PublicKey_non_magic_accept_iff Auth.demo
                    (Auth.demo_ctx "example.mydevice") "alice-key" Hne)).
    exists "example.mydevice", (Auth.mkTarget "example.mydevice" "root"),
      Auth.mydevice, "magic".
    repeat split; reflexivity.
  - apply (proj2 (proj2 (@PublicKey_non_magic_accept_iff Auth.demo
                    (Auth.demo_ctx "guest@example.mydevice") "alice-key" Hne))
             "guest@example.mydevice" eq_refl)
      with (tag := Auth.mkTarget "guest@example.mydevice" "guest")
           (device := Auth.mydevice);
      [reflexivity | reflexivity | discriminate].
Defined.

(** * Properties of the session channel handler *)

Section HandlerProperties.
Import Handler.

Lemma count_app {A} (p : A -> bool) (l1 l2 : list A) :
  count p (l1 ++ l2) = count p l1 + count p l2.
Proof. induction l1 as [|a l1 IH]; simpl; [done|]. rewrite IH. lia. Qed.

Lemma on_event_pipe_allowance st e acts st' fl :
  on_event st e = (acts, st', fl) ->
  count is_pipe acts + carried st' fl <= allowance st.
Proof.
  unfold carried, allowance. destruct st as [s b].
  intros H. event_cases; repeat case_match; simpl in *; try done; try lia.
Qed.

Lemma on_event_positive_allowance st e acts st' fl :
  on_event st e = (acts, st', fl) ->
  count is_positive_program_reply acts + carried st' fl <= allowance st.
Proof.
  unfold carried, allowance. destruct st as [s b].
  intros H. event_cases; simpl in *;
    repeat match goal with
           | Hp : is_program _ = _ |- _ => rewrite Hp
           end;
    repeat case_match; simpl; try done; try lia.
Qed.

Lemma multiplex_allowance (p : Action -> bool) :
  (forall st e acts st' fl,
      on_event st e = (acts, st', fl) -> count p acts + carried st' fl <= allowance st) ->
  forall es st, count p (multiplex st es).1.1 <= allowance st.
Proof.
  intros Hstep. induction es as [|e es IH]; intros st; simpl; [lia|].
  destruct (on_event st e) as [[acts st'] fl] eqn:He.
  specialize (Hstep _ _ _ _ _ He). specialize (IH st').
  destruct fl; simpl in *.
  - destruct (multiplex st' es) as [[acts' st''] end_]. simpl in *.
    rewrite count_app. lia.
  - lia.
Qed.

(** The trace of a run that reaches the loop. *)
Lemma handler_in_loop su s es :
  as_session (ctx su !! StringKey "session") = Some s ->
  accept_err su = None -> open_err su = None ->
  DefaultSessionHandler su es
  = ([Log Info "session channel started"; NewChanAccept; AgentOpenChannel SessionChannel]
       ++ (multiplex (mkLoop s false) es).1.1
       ++ run_defers [AgentClose; ClientClose; Log Info "session channel done";
                      SessFinish; ConnClose] (multiplex (mkLoop s false) es).2,
     Some (multiplex (mkLoop s false) es).1.2,
     (multiplex (mkLoop s false) es).2).
Proof.
  intros Hs Ha Ho. unfold DefaultSessionHandler. rewrite Hs, Ha, Ho.
  by destruct (multiplex _ es) as [[acts st'] end_].
Qed.

Lemma handler_count_allowance (p : Action -> bool) su es :
  (forall lvl msg, p (Log lvl msg) = false) ->
  (forall msg, p (NewChanReject msg) = false) ->
  p NewChanAccept = false -> (forall n, p (AgentOpenChannel n) = false) ->
  p SessFinish = false -> p AgentClose = false -> p ClientClose = false ->
  p ConnClose = false ->
  (forall st e acts st' fl,
      on_event st e = (acts, st', fl) -> count p acts + carried st' fl <= allowance st) ->
  count p (DefaultSessionHandler su es).1.1 <= 1.
Proof.
  intros Hlog Hrej Hacc Hopen Hfin Hac Hcc Hconn Hstep.
  unfold DefaultSessionHandler, reject.
  destruct (as_session _) as [s|]; simpl; [|rewrite ?Hlog, ?Hrej, ?Hconn; lia].
  destruct (accept_err su); simpl;
    [rewrite ?Hlog, ?Hrej, ?Hconn, ?Hacc, ?Hfin; lia|].
  destruct (open_err su); simpl;
    [rewrite ?Hlog, ?Hrej, ?Hconn, ?Hacc, ?Hfin, ?Hopen, ?Hcc; lia|].
  pose proof (multiplex_allowance p Hstep es (mkLoop s false)) as Hm.
  destruct (multiplex _ es) as [[acts st'] end_]. simpl in *.
  rewrite ?Hlog, ?Hacc, ?Hopen, count_app.
  destruct end_; simpl; rewrite ?Hlog, ?Hfin, ?Hac, ?Hcc, ?Hconn;
    unfold allowance in Hm; simpl in Hm; lia.
Qed.

(** The loop itself performs no teardown step. *)
Lemma on_event_no_teardown st e :
  teardown (on_event st e).1.1 = [] /\ count is_finish (on_event st e).1.1 = 0.
Proof. event_cases; done. Qed.

Lemma teardown_app l1 l2 : teardown (l1 ++ l2) = teardown l1 ++ teardown l2.
Proof. unfold teardown. apply List.filter_app. Qed.

Lemma multiplex_no_teardown es st :
  teardown (multiplex st es).1.1 = [] /\ count is_finish (multiplex st es).1.1 = 0.
Proof.
  revert st. induction es as [|e es IH]; intros st; simpl; [done|].
  destruct (on_event_no_teardown st e) as [Ht Hc].
  destruct (on_event st e) as [[acts st'] fl]. simpl in *.
  destruct fl; simpl; [|done].
  destruct (IH st') as [Ht' Hc'].
  destruct (multiplex st' es) as [[acts' st''] end_]. simpl in *.
  by rewrite teardown_app, count_app, Ht, Ht', Hc, Hc'.
Qed.

(** Events received while the loop keeps going, followed by more events. *)
Lemma multiplex_app st pre es :
  (multiplex st pre).2 = Blocked ->
  multiplex st (pre ++ es)
  = ((multiplex st pre).1.1 ++ (multiplex (multiplex st pre).1.2 es).1.1,
     (multiplex (multiplex st pre).1.2 es).1.2,
     (multiplex (multiplex st pre).1.2 es).2).
Proof.
  revert st. induction pre as [|e pre IH]; intros st; simpl.
  - intros _. by destruct (multiplex st es) as [[? ?] ?].
  - destruct (on_event st e) as [[acts st'] fl]. destruct fl; simpl; [|done].
    intros Hb. specialize (IH st').
    destruct (multiplex st' pre) as [[acts' st''] end_]. simpl in *.
    rewrite (IH Hb). by rewrite app_assoc.
Qed.

(** When one iteration returns, in terms of [exits]. *)
Lemma on_event_flow st e :
  (on_event st e).2 = if exits st e then Return else Next.
Proof.
  destruct st as [s b]. unfold exits.
  event_cases; simpl in *; repeat case_match; simplify_eq/=; try done;
    destruct b; simpl in *; try done;
    repeat match goal with
           | H : context [failed ?x] |- _ => destruct x; simpl in H
           end; try done;
    repeat match goal with
           | H : bool_decide _ = true |- _ => apply bool_decide_eq_true in H
           end;
    unfold PtyRequestType, WindowChangeRequestType in *; congruence.
Qed.

Lemma multiplex_exit st e post :
  exits st e = true ->
  multiplex st (e :: post) = ((on_event st e).1.1, (on_event st e).1.2, Returned).
Proof.
  intros He. simpl. pose proof (on_event_flow st e) as Hf. rewrite He in Hf.
  destruct (on_event st e) as [[acts st'] fl]. simpl in *. by subst.
Qed.

(** A run that is in the loop, has received [pre] without returning, and
    receives an event on which the loop is left. *)
Lemma handler_exit su s pre e post :
  as_session (ctx su !! StringKey "session") = Some s ->
  accept_err su = None -> open_err su = None ->
  (multiplex (mkLoop s false) pre).2 = Blocked ->
  exits (multiplex (mkLoop s false) pre).1.2 e = true ->
  DefaultSessionHandler su (pre ++ e :: post)
  = ([Log Info "session channel started"; NewChanAccept; AgentOpenChannel SessionChannel]
       ++ (multiplex (mkLoop s false) pre).1.1
       ++ (on_event (multiplex (mkLoop s false) pre).1.2 e).1.1
       ++ [AgentClose; ClientClose; Log Info "session channel done"; SessFinish; ConnClose],
     Some (on_event (multiplex (mkLoop s false) pre).1.2 e).1.2,
     Returned).
Proof.
  intros Hs Ha Ho Hb He.
  rewrite (handler_in_loop _ _ _ Hs Ha Ho), (multiplex_app _ _ _ Hb).
  rewrite (multiplex_exit _ _ _ He). simpl. by rewrite <- app_assoc.
Qed.

Lemma handler_finish_count su es :
  count is_finish (DefaultSessionHandler su es).1.1
  = match as_session (ctx su !! StringKey "session"), (DefaultSessionHandler su es).2 with
    | Some _, Returned => 1
    | _, _ => 0
    end.
Proof.
  unfold DefaultSessionHandler, reject.
  destruct (as_session _) as [s|]; simpl; [|done].
  destruct (accept_err su); simpl; [done|].
  destruct (open_err su); simpl; [done|].
  destruct (multiplex_no_teardown es (mkLoop s false)) as [_ Hc].
  destruct (multiplex _ es) as [[acts st'] end_]. simpl in *.
  rewrite count_app, Hc. by destruct end_.
Qed.

(** What a program request does once [started] is set and the request has
    been forwarded. *)
Lemma on_event_program_started st req o :
  started st = true -> is_program (ReqType req) = true -> send_err o = None ->
  on_event st (ClientReq (Some req) o)
  = ([Log Debug "request from client to agent";
      SendRequest ToAgent (ReqType req) (WantReply req) (Payload req);
      Log Warn "tried to start and forbidden request type";
      Reply FromClient req false None]
       ++ (if failed (reply_err o)
           then [Log Error "failed to reply the client when data pipe already started"]
           else []),
     st, if failed (reply_err o) then Return else Next).
Proof.
  intros Hst Hp Hs. simpl. unfold on_client, on_program. rewrite Hs, Hp, Hst. simpl.
  by destruct (reply_err o).
Qed.

(** C1 (amended). In every run of the handler at most one data pipe is
    started and at most one shell, exec or subsystem request is answered
    positively; and a shell, exec or subsystem request that arrives once
    [started] is set and that is forwarded to the agent without error is
    answered negatively, starts no pipe and leaves the state as it was. *)
Theorem one_program_per_channel su es :
  count is_pipe (DefaultSessionHandler su es).1.1 <= 1 /\
  count is_positive_program_reply (DefaultSessionHandler su es).1.1 <= 1 /\
  forall st req o,
    started st = true -> is_program (ReqType req) = true -> send_err o = None ->
    (exists tail,
        (on_event st (ClientReq (Some req) o)).1.1
        = [Log Debug "request from client to agent";
           SendRequest ToAgent (ReqType req) (WantReply req) (Payload req);
           Log Warn "tried to start and forbidden request type";
           Reply FromClient req false None] ++ tail /\
        count is_client_reply tail = 0) /\
    count is_pipe (on_event st (ClientReq (Some req) o)).1.1 = 0 /\
    count is_positive_program_reply (on_event st (ClientReq (Some req) o)).1.1 = 0 /\
    (on_event st (ClientReq (Some req) o)).1.2 = st.
Proof.
  split; [|split].
  - apply handler_count_allowance; try done. apply on_event_pipe_allowance.
  - apply handler_count_allowance; try done. apply on_event_positive_allowance.
  - intros st req o Hst Hp Hs.
    rewrite (on_event_program_started _ _ _ Hst Hp Hs). simpl.
    split; [|by destruct (reply_err o)].
    eexists. split; [reflexivity|]. by destruct (reply_err o).
Qed.

Lemma one_program_per_channel_witness :
  count is_pipe
    (DefaultSessionHandler demo_setup
       [ClientReq (Some shell_req) all_ok; ClientReq (Some exec_req) all_ok; CtxDone]).1.1 <= 1 /\
  (on_event (mkLoop demo_sess true) (ClientReq (Some exec_req) all_ok)).1.2
  = mkLoop demo_sess true.
Proof.
  pose proof (one_program_per_channel demo_setup
                [ClientReq (Some shell_req) all_ok; ClientReq (Some exec_req) all_ok; CtxDone])
    as (Hpipe & _ & Hafter).
  split; [exact Hpipe|].
  exact (proj2 (proj2 (proj2 (Hafter (mkLoop demo_sess true) exec_req all_ok
                                     eq_refl eq_refl eq_refl)))).
Defined.

(** C1, as stated, fails: an exec request that arrives after a shell was
    started and whose forwarding to the agent fails is dropped: the client
    receives no reply at all. *)
Lemma program_request_after_start_unanswered :
  started (mkLoop demo_sess true) = true /\
  is_program (ReqType exec_req) = true /\
  on_event (mkLoop demo_sess true) (ClientReq (Some exec_req) forward_fails)
  = ([Log Debug "request from client to agent"; SendRequest ToAgent "exec" true []],
     mkLoop demo_sess true, Next) /\
  count is_client_reply
    (on_event (mkLoop demo_sess true) (ClientReq (Some exec_req) forward_fails)).1.1 = 0 /\
  count is_client_reply
    (DefaultSessionHandler demo_setup
       [ClientReq (Some shell_req) all_ok; ClientReq (Some exec_req) forward_fails]).1.1 = 1.
Proof. repeat split. Qed.

(** C10. A shell, exec or subsystem request without want-reply that arrives
    while [started] is unset is forwarded to the agent and nothing else:
    no reply, no pipe, [started] stays unset, the loop goes on. *)
Theorem program_request_without_reply st req o :
  started st = false -> is_program (ReqType req) = true -> WantReply req = false ->
  on_event st (ClientReq (Some req) o)
  = ([Log Debug "request from client to agent";
      SendRequest ToAgent (ReqType req) false (Payload req)], st, Next).
Proof.
  intros Hst Hp Hw. simpl. unfold on_client, on_program. rewrite Hp, Hst, Hw. simpl.
  by destruct (send_err o).
Qed.

Lemma program_request_without_reply_witness :
  on_event (mkLoop demo_sess false) (ClientReq (Some exec_noreply) all_ok)
  = ([Log Debug "request from client to agent"; SendRequest ToAgent "exec" false []],
     mkLoop demo_sess false, Next).
Proof.
  apply (program_request_without_reply (mkLoop demo_sess false) exec_noreply all_ok);
    reflexivity.
Defined.

(** A pty-req stores whatever [gossh.Unmarshal] left in the struct. *)
Lemma on_event_pty_req st req o :
  ReqType req = PtyRequestType -> send_err o = None ->
  (on_event st (ClientReq (Some req) o)).1.2
  = mkLoop (set_Pty (sess st) (unmarshal_pty o)) (started st).
Proof.
  intros Ht Hs. simpl. unfold on_client, on_pty_req. rewrite Hs, Ht. simpl.
  destruct (WantReply req); [|done]. by destruct (reply_err o).
Qed.

Lemma on_event_window_change st req o :
  ReqType req = WindowChangeRequestType -> send_err o = None ->
  (on_event st (ClientReq (Some req) o)).1.2
  = mkLoop (set_Pty_Rows (set_Pty_Columns (sess st) (Dimensions.Columns (unmarshal_dim o)))
                         (Dimensions.Rows (unmarshal_dim o)))
           (started st).
Proof.
  intros Ht Hs. simpl. unfold on_client, on_window_change. rewrite Hs, Ht. simpl.
  by destruct (WantReply req).
Qed.

(** C2 (amended). A forwarded pty-req whose decoded columns and rows are not
    zero stores them in the session; a forwarded window-change sets the
    stored columns and rows to the decoded columns and rows whatever they
    are, zero included, and leaves the other fields of the pseudo-terminal
    state as they were. *)
Theorem pty_dimensions_stored st req o :
  send_err o = None ->
  let st' := (on_event st (ClientReq (Some req) o)).1.2 in
  (ReqType req = PtyRequestType ->
   Columns (unmarshal_pty o) <> 0%Z -> Rows (unmarshal_pty o) <> 0%Z ->
   Columns (SessPty (sess st')) = Columns (unmarshal_pty o) /\
   Rows (SessPty (sess st')) = Rows (unmarshal_pty o)) /\
  (ReqType req = WindowChangeRequestType ->
   Columns (SessPty (sess st')) = Dimensions.Columns (unmarshal_dim o) /\
   Rows (SessPty (sess st')) = Dimensions.Rows (unmarshal_dim o) /\
   Term (SessPty (sess st')) = Term (SessPty (sess st)) /\
   Width (SessPty (sess st')) = Width (SessPty (sess st)) /\
   Height (SessPty (sess st')) = Height (SessPty (sess st)) /\
   Modes (SessPty (sess st')) = Modes (SessPty (sess st))).
Proof.
  intros Hs st'. subst st'. split.
  - intros Ht _ _. by rewrite (on_event_pty_req _ _ _ Ht Hs).
  - intros Ht. by rewrite (on_event_window_change _ _ _ Ht Hs).
Qed.

Lemma pty_dimensions_stored_witness :
  Columns (SessPty (sess (on_event (mkLoop (set_Pty demo_sess xterm_80x24) false)
     (ClientReq (Some window_change) (decodes_dim (Dimensions.mk 100 30 0 0)))).1.2)) = 100%Z /\
  Columns (SessPty (sess (on_event (mkLoop demo_sess false)
     (ClientReq (Some pty_req) (decodes_pty xterm_80x24))).1.2)) = 80%Z.
Proof.
  split.
  - exact (proj1 (proj2 (pty_dimensions_stored (mkLoop (set_Pty demo_sess xterm_80x24) false)
                           window_change (decodes_dim (Dimensions.mk 100 30 0 0)) eq_refl)
                    eq_refl)).
  - refine (proj1 (proj1 (pty_dimensions_stored (mkLoop demo_sess false)
                            pty_req (decodes_pty xterm_80x24) eq_refl)
                     eq_refl _ _)); discriminate.
Defined.

(** C2, as stated, fails: after a pty-req of 80 columns by 24 rows, a
    window-change of 100 columns and 0 rows leaves 100 columns and 0 rows in
    the session, not 100 by 24. *)
Lemma window_change_zero_rows_overwrites :
  let su := demo_setup in
  let run := DefaultSessionHandler su
               [ClientReq (Some pty_req) (decodes_pty xterm_80x24);
                ClientReq (Some window_change) (decodes_dim (Dimensions.mk 100 0 0 0))] in
  (SessPty ∘ sess) <$> run.1.2 = Some (mkPty "xterm" 100 0 0 0 []) /\
  (Rows ∘ SessPty ∘ sess) <$> run.1.2 <> Some 24%Z.
Proof. split; [reflexivity | discriminate]. Qed.

(** A pty-req whose dimension fields are all zero overwrites the stored
    dimensions as well. *)
Lemma pty_req_zero_overwrites :
  (on_event (mkLoop (set_Pty demo_sess xterm_80x24) false)
            (ClientReq (Some pty_req) (decodes_pty (mkPty "xterm" 0 0 0 0 [])))).1.2
  = mkLoop (set_Pty demo_sess (mkPty "xterm" 0 0 0 0 [])) false.
Proof. reflexivity. Qed.

(** C5. On a keepalive global request from the agent the handler calls the
    session's keep-alive.  When that call succeeds it replies [false] with no
    payload to the agent and the loop goes on (also when the reply is not
    delivered); when it fails nothing is replied, the loop is left, and the
    handler returns after finishing the session once. *)
Theorem keepalive_global_request su s pre post req o :
  as_session (ctx su !! StringKey "session") = Some s ->
  accept_err su = None -> open_err su = None ->
  (multiplex (mkLoop s false) pre).2 = Blocked ->
  ReqType req = KeepAliveRequestType ->
  let st := (multiplex (mkLoop s false) pre).1.2 in
  match keepalive_err o with
  | None =>
      on_event st (AgentGlobalReq (Some req) o)
      = ([Log Debug "global request from agent"; SessKeepAlive;
          Reply FromAgentGlobal req false None]
           ++ match reply_err o with Some e => [Log Error e] | None => [] end,
         st, Next)
  | Some e =>
      on_event st (AgentGlobalReq (Some req) o)
      = ([Log Debug "global request from agent"; SessKeepAlive; Log Error e], st, Return) /\
      (DefaultSessionHandler su (pre ++ AgentGlobalReq (Some req) o :: post)).2 = Returned /\
      count is_finish
        (DefaultSessionHandler su (pre ++ AgentGlobalReq (Some req) o :: post)).1.1 = 1
  end.
Proof.
  intros Hs Ha Ho Hb Ht st.
  assert (forall e, keepalive_err o = Some e ->
                    exits st (AgentGlobalReq (Some req) o) = true) as Hex.
  { intros e He. simpl. rewrite Ht, He. done. }
  simpl. unfold on_agent_global. rewrite Ht. simpl.
  destruct (keepalive_err o) as [e|] eqn:Hk.
  - split; [done|].
    pose proof (handler_finish_count su (pre ++ AgentGlobalReq (Some req) o :: post)) as Hc.
    rewrite (handler_exit _ _ _ _ post Hs Ha Ho Hb (Hex e eq_refl)) in *.
    rewrite Hs in Hc. done.
  - by destruct (reply_err o).
Qed.

Lemma keepalive_global_request_witness :
  on_event (mkLoop demo_sess false) (AgentGlobalReq (Some keepalive_req) keepalive_fails)
  = ([Log Debug "global request from agent"; SessKeepAlive; Log Error "api: unreachable"],
     mkLoop demo_sess false, Return) /\
  (DefaultSessionHandler demo_setup
     ([] ++ AgentGlobalReq (Some keepalive_req) keepalive_fails :: [])).2 = Returned /\
  count is_finish
    (DefaultSessionHandler demo_setup
       ([] ++ AgentGlobalReq (Some keepalive_req) keepalive_fails :: [])).1.1 = 1.
Proof.
  exact (keepalive_global_request demo_setup demo_sess [] [] keepalive_req keepalive_fails
           eq_refl eq_refl eq_refl eq_refl eq_refl).
Defined.

(** C6. Whenever the handler returns for a connection whose session was
    recovered, [sess.Finish] has been called exactly once; and a handler in
    the loop does return on each event on which the loop is left (context
    done, a request channel closed, keep-alive failure, a fatal reply
    failure). *)
Theorem Finish_exactly_once su s es :
  as_session (ctx su !! StringKey "session") = Some s ->
  ((DefaultSessionHandler su es).2 = Returned ->
   count is_finish (DefaultSessionHandler su es).1.1 = 1) /\
  (forall pre e post,
      accept_err su = None -> open_err su = None ->
      es = pre ++ e :: post ->
      (multiplex (mkLoop s false) pre).2 = Blocked ->
      exits (multiplex (mkLoop s false) pre).1.2 e = true ->
      (DefaultSessionHandler su es).2 = Returned /\
      count is_finish (DefaultSessionHandler su es).1.1 = 1).
Proof.
  intros Hs.
  pose proof (handler_finish_count su es) as Hc. rewrite Hs in Hc.
  split.
  - intros Hr. by rewrite Hr in Hc.
  - intros pre e post Ha Ho -> Hb He.
    rewrite (handler_exit _ _ _ _ post Hs Ha Ho Hb He) in *. done.
Qed.

Lemma Finish_exactly_once_witness :
  count is_finish
    (DefaultSessionHandler demo_setup
       [ClientReq (Some shell_req) all_ok; ClientReq None all_ok]).1.1 = 1.
Proof.
  apply (proj2 (Finish_exactly_once demo_setup demo_sess
                  [ClientReq (Some shell_req) all_ok; ClientReq None all_ok] eq_refl)
           [ClientReq (Some shell_req) all_ok] (ClientReq None all_ok) []);
    reflexivity.
Defined.

(** C7: the evaluation of the handler on a pty-req whose payload does not
    decode, after a pty-req of 80 by 24.  The handler logs the error and
    calls [Reject] on the new channel, then goes on: it stores the struct
    the failed decoding left behind over the session's pseudo-terminal
    state, replies to the client with the agent's answer, and stays in the
    loop. *)
Lemma pty_req_decode_failure_continues :
  let st := mkLoop (set_Pty demo_sess xterm_80x24) false in
  on_event st (ClientReq (Some pty_req) short_pty_payload)
  = ([Log Debug "request from client to agent";
      SendRequest ToAgent "pty-req" true [];
      Log Error "failed to recover the session dimensions";
      NewChanReject "failed to recover the session dimensions";
      Reply FromClient pty_req true None],
     mkLoop (set_Pty demo_sess (mkPty "xterm" 0 0 0 0 [])) false,
     Next) /\
  (DefaultSessionHandler demo_setup
     [ClientReq (Some pty_req) (decodes_pty xterm_80x24);
      ClientReq (Some pty_req) short_pty_payload]).2 = Blocked.
Proof. split; reflexivity. Qed.

(** C8 (amended). One iteration of the loop returns exactly on the events
    listed by [exits]: context done; the agent's global request channel, the
    client's or the agent's request channel closed; a failed keep-alive
    call; a failed reply to a forwarded shell, exec or subsystem request, to
    a forwarded pty-req or other client request that wants a reply, or to a
    forwarded agent request that wants a reply.  A failed reply to a
    window-change, or to a global request of the agent, does not end the
    loop. *)
Theorem loop_exit_conditions st e :
  ((on_event st e).2 = Return <-> exits st e = true) /\
  (forall req o, e = ClientReq (Some req) o ->
                 ReqType req = WindowChangeRequestType -> (on_event st e).2 = Next) /\
  (forall req o, e = AgentGlobalReq (Some req) o ->
                 keepalive_err o = None -> (on_event st e).2 = Next).
Proof.
  split; [|split].
  - rewrite on_event_flow. by destruct (exits st e).
  - intros req o -> Ht. rewrite on_event_flow. simpl. rewrite Ht.
    destruct (negb _ && _); done.
  - intros req o -> Hk. rewrite on_event_flow. simpl. rewrite Hk.
    by rewrite andb_false_r.
Qed.

Lemma loop_exit_conditions_witness :
  (on_event (mkLoop demo_sess false) (ClientReq (Some pty_req) reply_fails)).2 = Return /\
  (on_event (mkLoop demo_sess false) (ClientReq (Some window_change) reply_fails)).2 = Next.
Proof.
  split.
  - apply (proj1 (loop_exit_conditions (mkLoop demo_sess false)
                    (ClientReq (Some pty_req) reply_fails))).
    reflexivity.
  - apply (proj1 (proj2 (loop_exit_conditions (mkLoop demo_sess false)
                           (ClientReq (Some window_change) reply_fails)))
             window_change reply_fails); reflexivity.
Defined.

(** C8, as stated, fails: the reply to a window-change is not delivered and
    the handler stays in the loop; so it does when the reply to a keepalive
    of the agent is not delivered. *)
Lemma window_change_reply_failure_continues :
  on_event (mkLoop demo_sess false) (ClientReq (Some window_change) reply_fails)
  = ([Log Debug "request from client to agent";
      SendRequest ToAgent "window-change" true [];
      Reply FromClient window_change true None],
     mkLoop demo_sess false, Next) /\
  reply_err reply_fails = Some "EOF" /\
  (DefaultSessionHandler demo_setup
     [ClientReq (Some window_change) reply_fails]).2 = Blocked /\
  (DefaultSessionHandler demo_setup
     [AgentGlobalReq (Some keepalive_req) reply_fails]).2 = Blocked.
Proof. repeat split. Qed.

(** C9 (amended). When the context is done while the handler waits in the
    loop, the handler returns and its trace ends with: close the agent
    channel, close the client channel, finish the session, close the
    connection, in that order. *)
Theorem cancellation_teardown_order su s pre post :
  as_session (ctx su !! StringKey "session") = Some s ->
  accept_err su = None -> open_err su = None ->
  (multiplex (mkLoop s false) pre).2 = Blocked ->
  DefaultSessionHandler su (pre ++ CtxDone :: post)
  = ([Log Info "session channel started"; NewChanAccept; AgentOpenChannel SessionChannel]
       ++ (multiplex (mkLoop s false) pre).1.1
       ++ [Log Info "context has done"; AgentClose; ClientClose;
           Log Info "session channel done"; SessFinish; ConnClose],
     Some (multiplex (mkLoop s false) pre).1.2, Returned) /\
  teardown (DefaultSessionHandler su (pre ++ CtxDone :: post)).1.1
  = [AgentClose; ClientClose; SessFinish; ConnClose].
Proof.
  intros Hs Ha Ho Hb.
  rewrite (handler_exit _ _ _ CtxDone post Hs Ha Ho Hb eq_refl). simpl.
  split; [done|].
  change (?a :: ?b :: ?c :: ?l ++ ?r) with ([a; b; c] ++ l ++ r).
  rewrite !teardown_app.
  by rewrite (proj1 (multiplex_no_teardown pre (mkLoop s false))).
Qed.

Lemma cancellation_teardown_order_witness :
  teardown (DefaultSessionHandler demo_setup
              ([ClientReq (Some shell_req) all_ok] ++ CtxDone :: [])).1.1
  = [AgentClose; ClientClose; SessFinish; ConnClose].
Proof.
  exact (proj2 (cancellation_teardown_order demo_setup demo_sess
                  [ClientReq (Some shell_req) all_ok] [] eq_refl eq_refl eq_refl eq_refl)).
Defined.

(** C9, as stated, fails: on cancellation the connection is closed after the
    session is finished, not before. *)
Lemma cancellation_finishes_before_conn_close :
  let tr := (DefaultSessionHandler demo_setup [CtxDone]).1.1 in
  precedes is_agent_close is_client_close tr = true /\
  precedes is_client_close is_conn_close tr = true /\
  precedes is_conn_close is_finish tr = false /\
  precedes is_finish is_conn_close tr = true.
Proof. repeat split. Qed.

(** A run of the handler: pty-req of 80 by 24, shell, exec, then the client
    closes its request channel. *)
Example shell_then_exec_run :
  DefaultSessionHandler demo_setup
    [ClientReq (Some pty_req) (decodes_pty xterm_80x24);
     ClientReq (Some shell_req) all_ok;
     ClientReq (Some exec_req) all_ok;
     ClientReq None all_ok]
  = ([Log Info "session channel started"; NewChanAccept; AgentOpenChannel "session";
      Log Debug "request from client to agent"; SendRequest ToAgent "pty-req" true [];
      Reply FromClient pty_req true None;
      Log Debug "request from client to agent"; SendRequest ToAgent "shell" true [];
      Reply FromClient shell_req true (Some []);
      Log Info "session type set"; SessAnnounce; GoPipe "shell";
      Log Debug "request from client to agent"; SendRequest ToAgent "exec" true [];
      Log Warn "tried to start and forbidden request type";
      Reply FromClient exec_req false None;
      Log Trace "client requests is closed";
      AgentClose; ClientClose; Log Info "session channel done"; SessFinish; ConnClose],
     Some (mkLoop (set_Pty demo_sess xterm_80x24) true),
     Returned).
Proof. reflexivity. Qed.

End HandlerProperties.

(** * Further properties of the session channel handler *)

Section RunProperties.
Import Handler Run.

Lemma forwarded_app to l1 l2 :
  forwarded to (l1 ++ l2) = forwarded to l1 ++ forwarded to l2.
Proof. apply omap_app. Qed.

(** One iteration forwards exactly the request it received, if any. *)
Lemma on_event_forwarded st e :
  forwarded ToAgent (on_event st e).1.1 = from_client [e] /\
  forwarded ToClient (on_event st e).1.1 = from_agent [e].
Proof. event_cases; unfold wire; split; congruence. Qed.

Lemma multiplex_forwarded es st :
  exists done_ rest,
    es = done_ ++ rest /\
    forwarded ToAgent (multiplex st es).1.1 = from_client done_ /\
    forwarded ToClient (multiplex st es).1.1 = from_agent done_ /\
    ((multiplex st es).2 = Blocked -> rest = []).
Proof.
  revert st. induction es as [|e es IH]; intros st; simpl.
  - by exists [], [].
  - destruct (on_event_forwarded st e) as [Ha Hc].
    destruct (on_event st e) as [[acts st'] fl]. simpl in *.
    destruct fl; simpl.
    + destruct (IH st') as (done_ & rest & -> & Ha' & Hc' & Hb).
      destruct (multiplex st' (done_ ++ rest)) as [[acts' st''] end_]. simpl in *.
      exists (e :: done_), rest. rewrite !forwarded_app, Ha, Hc, Ha', Hc'.
      repeat split; try done.
      * change (e :: done_) with ([e] ++ done_). unfold from_client. by rewrite omap_app.
      * change (e :: done_) with ([e] ++ done_). unfold from_agent. by rewrite omap_app.
    + exists [e], es. by repeat split.
Qed.

(** X1. Requests are relayed verbatim and in arrival order: the requests
    sent to the agent are exactly the client requests of the events served
    so far, the requests sent to the client exactly the agent requests
    served so far, with type, want-reply flag and payload unchanged; global
    requests of the agent are not relayed.  While the handler has not
    returned every event has been served. *)
Theorem requests_forwarded_in_order su es :
  exists served rest,
    es = served ++ rest /\
    forwarded ToAgent (DefaultSessionHandler su es).1.1 = from_client served /\
    forwarded ToClient (DefaultSessionHandler su es).1.1 = from_agent served /\
    ((DefaultSessionHandler su es).2 = Blocked -> rest = []).
Proof.
  unfold DefaultSessionHandler, reject.
  destruct (as_session _) as [s|]; [|by exists [], es].
  destruct (accept_err su); [by exists [], es|].
  destruct (open_err su); [by exists [], es|].
  destruct (multiplex_forwarded es (mkLoop s false))
    as (served & rest & -> & Ha & Hc & Hb).
  destruct (multiplex _ (served ++ rest)) as [[acts st'] end_]. simpl in *.
  exists served, rest. rewrite !forwarded_app, Ha, Hc.
  repeat split; try done.
  - by destruct end_; simpl; rewrite app_nil_r.
  - by destruct end_; simpl; rewrite app_nil_r.
Qed.

(** X2. The resources released by the handler depend only on how far its
    set-up got and on whether it has returned: the deferred calls run in the
    reverse order of their registration on every path that returns, and not
    at all while the handler waits in the loop. *)
Theorem teardown_by_stage su es :
  teardown (DefaultSessionHandler su es).1.1
  = match stage su, (DefaultSessionHandler su es).2 with
    | NoSession, _ => [ConnClose]
    | AcceptFailed, _ => [SessFinish; ConnClose]
    | OpenFailed, _ => [ClientClose; SessFinish; ConnClose]
    | InLoop, Returned => [AgentClose; ClientClose; SessFinish; ConnClose]
    | InLoop, Blocked => []
    end.
Proof.
  unfold DefaultSessionHandler, stage, reject.
  destruct (as_session _) as [s|]; [|done].
  destruct (accept_err su); [done|].
  destruct (open_err su); [done|].
  pose proof (proj1 (multiplex_no_teardown es (mkLoop s false))) as Ht.
  destruct (multiplex _ es) as [[acts st'] end_]. simpl in *.
  change (?a :: ?b :: ?c :: ?l ++ ?r) with ([a; b; c] ++ l ++ r).
  rewrite !teardown_app, Ht. by destruct end_.
Qed.

(** X3. When the set-up fails (no session in the context, the channel is
    not accepted, or the agent channel cannot be opened) the handler rejects
    the channel once and returns without serving any event: nothing is
    forwarded and nothing is replied, whatever the peers send.  Without a
    session it neither accepts the channel nor finishes a session. *)
Theorem setup_failure_serves_nothing su es :
  stage su <> InLoop ->
  DefaultSessionHandler su es = DefaultSessionHandler su [] /\
  (DefaultSessionHandler su es).2 = Returned /\
  count is_channel_reject (DefaultSessionHandler su es).1.1 = 1 /\
  count is_send (DefaultSessionHandler su es).1.1 = 0 /\
  count is_reply (DefaultSessionHandler su es).1.1 = 0 /\
  (stage su = NoSession ->
   count is_accept (DefaultSessionHandler su es).1.1 = 0 /\
   count is_finish (DefaultSessionHandler su es).1.1 = 0 /\
   (DefaultSessionHandler su es).1.2 = None).
Proof.
  unfold DefaultSessionHandler, stage, reject.
  destruct (as_session _) as [s|]; [|done].
  destruct (accept_err su); [done|].
  destruct (open_err su); done.
Qed.

Lemma setup_failure_serves_nothing_witness :
  DefaultSessionHandler open_fails_setup [ClientReq (Some shell_req) all_ok]
  = DefaultSessionHandler open_fails_setup [] /\
  count is_accept (DefaultSessionHandler no_session_setup [CtxDone]).1.1 = 0.
Proof.
  split.
  - refine (proj1 (setup_failure_serves_nothing open_fails_setup
                     [ClientReq (Some shell_req) all_ok] _)).
    discriminate.
  - refine (proj1 (proj2 (proj2 (proj2 (proj2 (proj2
              (setup_failure_serves_nothing no_session_setup [CtxDone] _))))) eq_refl)).
    discriminate.
Defined.

(** X4. Nothing is served after the event on which the loop is left: the
    run is the same whatever follows that event. *)
Theorem events_after_exit_ignored su s pre e post :
  as_session (ctx su !! StringKey "session") = Some s ->
  (multiplex (mkLoop s false) pre).2 = Blocked ->
  exits (multiplex (mkLoop s false) pre).1.2 e = true ->
  DefaultSessionHandler su (pre ++ e :: post) = DefaultSessionHandler su (pre ++ [e]).
Proof.
  intros Hs Hb He. unfold DefaultSessionHandler. rewrite Hs.
  destruct (accept_err su); [done|]. destruct (open_err su); [done|].
  by rewrite !(multiplex_app _ _ _ Hb), !(multiplex_exit _ _ _ He).
Qed.

Lemma events_after_exit_ignored_witness :
  DefaultSessionHandler demo_setup
    ([ClientReq (Some shell_req) all_ok] ++ ClientReq None all_ok
       :: [ClientReq (Some exec_req) all_ok; CtxDone])
  = DefaultSessionHandler demo_setup
      ([ClientReq (Some shell_req) all_ok] ++ [ClientReq None all_ok]).
Proof.
  exact (events_after_exit_ignored demo_setup demo_sess
           [ClientReq (Some shell_req) all_ok] (ClientReq None all_ok)
           [ClientReq (Some exec_req) all_ok; CtxDone] eq_refl eq_refl eq_refl).
Defined.

Lemma on_event_pipe_flag st e :
  count is_pipe (on_event st e).1.1 + b2n (started st) = b2n (started (on_event st e).1.2) /\
  count is_announce (on_event st e).1.1 = count is_shell_pipe (on_event st e).1.1.
Proof.
  destruct st as [s b].
  event_cases; simpl in *; repeat case_bool_decide; try done;
    destruct b; simpl in *; try done;
    unfold is_program, ShellRequestType, ExecRequestType, SubsystemRequestType in *;
    repeat case_bool_decide; simplify_eq/=; try done.
Qed.

Lemma multiplex_pipe_flag es st :
  count is_pipe (multiplex st es).1.1 + b2n (started st)
  = b2n (started (multiplex st es).1.2) /\
  count is_announce (multiplex st es).1.1 = count is_shell_pipe (multiplex st es).1.1.
Proof.
  revert st. induction es as [|e es IH]; intros st; simpl; [done|].
  destruct (on_event_pipe_flag st e) as [Hp Ha].
  destruct (on_event st e) as [[acts st'] fl]. simpl in *.
  destruct fl; simpl; [|done].
  destruct (IH st') as [Hp' Ha'].
  destruct (multiplex st' es) as [[acts' st''] end_]. simpl in *.
  rewrite !count_app. lia.
Qed.

(** X5. The flag [started] records the data pipe: at any point of a run it
    is set if and only if the handler has started a pipe, and a run without
    a session starts none. *)
Theorem pipe_started_iff_flag su es :
  count is_pipe (DefaultSessionHandler su es).1.1
  = match (DefaultSessionHandler su es).1.2 with
    | Some st' => b2n (started st')
    | None => 0
    end.
Proof.
  unfold DefaultSessionHandler, reject.
  destruct (as_session _) as [s|]; [|done].
  destruct (accept_err su); [done|].
  destruct (open_err su); [done|].
  pose proof (proj1 (multiplex_pipe_flag es (mkLoop s false))) as Hp.
  destruct (multiplex _ es) as [[acts st'] end_]. simpl in *.
  rewrite count_app. destruct end_; simpl; lia.
Qed.

(** X6. The connection announcement is attempted exactly when a pipe is
    started for a shell request, hence at most once in a run and never for
    an exec or subsystem request. *)
Theorem announce_only_with_shell su es :
  count is_announce (DefaultSessionHandler su es).1.1
  = count is_shell_pipe (DefaultSessionHandler su es).1.1 /\
  count is_announce (DefaultSessionHandler su es).1.1 <= 1.
Proof.
  assert (count is_announce (DefaultSessionHandler su es).1.1
          = count is_shell_pipe (DefaultSessionHandler su es).1.1) as Heq.
  { unfold DefaultSessionHandler, reject.
    destruct (as_session _) as [s|]; [|done].
    destruct (accept_err su); [done|].
    destruct (open_err su); [done|].
    pose proof (proj2 (multiplex_pipe_flag es (mkLoop s false))) as Ha.
    destruct (multiplex _ es) as [[acts st'] end_]. simpl in *.
    rewrite !count_app, Ha. by destruct end_. }
  split; [done|]. rewrite Heq.
  pose proof (handler_count_allowance is_pipe su es) as Hp.
  assert (forall l, count is_shell_pipe l <= count is_pipe l) as Hle.
  { induction l as [|a l IH]; simpl; [lia|]. destruct a; simpl; try lia.
    case_bool_decide; lia. }
  specialize (Hle (DefaultSessionHandler su es).1.1).
  assert (count is_pipe (DefaultSessionHandler su es).1.1 <= 1); [|lia].
  apply Hp; try done. apply on_event_pipe_allowance.
Qed.

Lemma on_event_frame st e :
  same_identity (sess st) (sess (on_event st e).1.2) /\
  (is_resize e = false -> SessPty (sess (on_event st e).1.2) = SessPty (sess st)).
Proof.
  unfold same_identity. destruct st as [s b].
  event_cases; simpl in *; try done;
    split; try done; intros Hr;
    repeat match goal with
           | H : bool_decide _ = true |- _ => rewrite H in Hr
           end; simpl in Hr; try done; by rewrite orb_true_r in Hr.
Qed.

Lemma multiplex_frame es st :
  same_identity (sess st) (sess (multiplex st es).1.2) /\
  (Forall (fun e => is_resize e = false) es ->
   SessPty (sess (multiplex st es).1.2) = SessPty (sess st)).
Proof.
  revert st. induction es as [|e es IH]; intros st; simpl; [done|].
  destruct (on_event_frame st e) as [Hi Hp].
  destruct (on_event st e) as [[acts st'] fl]. simpl in *.
  destruct fl; simpl.
  - destruct (IH st') as [Hi' Hp'].
    destruct (multiplex st' es) as [[acts' st''] end_]. simpl in *.
    split.
    { destruct Hi as (? & ? & ? & ?), Hi' as (? & ? & ? & ?).
      unfold same_identity. repeat split; congruence. }
    intros Hall. apply Forall_cons in Hall as [He Hes].
    by rewrite Hp', Hp.
  - split; [done|]. intros Hall. apply Forall_cons in Hall as [He _]. by apply Hp.
Qed.

(** X7. The handler never changes who the session belongs to: identifier,
    device, user name and client address of the session are at the end of
    any run what they were in the context; and the stored pseudo-terminal
    state changes only through pty-req and window-change requests of the
    client. *)
Theorem session_identity_preserved su s es :
  as_session (ctx su !! StringKey "session") = Some s ->
  exists st',
    (DefaultSessionHandler su es).1.2 = Some st' /\
    same_identity s (sess st') /\
    (Forall (fun e => is_resize e = false) es -> SessPty (sess st') = SessPty s).
Proof.
  intros Hs. unfold DefaultSessionHandler. rewrite Hs.
  destruct (accept_err su); [by eexists|].
  destruct (open_err su); [by eexists|].
  destruct (multiplex_frame es (mkLoop s false)) as [Hi Hp].
  destruct (multiplex _ es) as [[acts st'] end_]. simpl in *.
  by exists st'.
Qed.

Lemma session_identity_preserved_witness :
  exists st',
    (DefaultSessionHandler demo_setup
       [ClientReq (Some shell_req) all_ok; AgentReq (Some exit_status_req) all_ok]).1.2
    = Some st' /\
    same_identity demo_sess (sess st') /\
    (Forall (fun e => is_resize e = false)
            [ClientReq (Some shell_req) all_ok; AgentReq (Some exit_status_req) all_ok] ->
     SessPty (sess st') = SessPty demo_sess).
Proof.
  exact (session_identity_preserved demo_setup demo_sess
           [ClientReq (Some shell_req) all_ok; AgentReq (Some exit_status_req) all_ok]
           eq_refl).
Defined.




End RunProperties.

(** * Further properties of the authenticator *)

Section CallProperties.
Import Auth Calls.
Context `{C : Collaborators}.

(** X9. The callback touches the context only to record an accepted key:
    on acceptance the context afterwards is the context before with the
    fingerprint stored under ["public_key"] and no error is logged; on
    rejection the context is unchanged and the failing stage is logged. *)
Theorem PublicKey_context_effect ctx pubKey :
  if accepted (PublicKey ctx pubKey)
  then ctx_after (PublicKey ctx pubKey)
       = <[StringKey "public_key" := VString (FingerprintLegacyMD5 pubKey)]> ctx /\
       logged (PublicKey ctx pubKey) = None
  else ctx_after (PublicKey ctx pubKey) = ctx /\
       is_Some (logged (PublicKey ctx pubKey)).
Proof.
  unfold PublicKey, deny.
  destruct (as_string _); simpl; [|eauto].
  destruct (NewTarget _) as [tag|]; simpl; [|eauto].
  destruct (build_lookup tag) as [[lookup|msg] calls]; simpl; [|eauto].
  destruct (DeviceLookup lookup) as [device errs].
  case_bool_decide; simpl; [eauto|].
  destruct magicPubKey; simpl; [|eauto].
  case_bool_decide; simpl; [|eauto].
  destruct (evaluate _ device tag) as [[msg|] calls']; simpl; eauto.
Qed.

Lemma build_lookup_calls tag :
  (build_lookup tag).2 = if IsSSHID tag then [] else [CallGetDevice (Data tag)].
Proof.
  unfold build_lookup. destruct (IsSSHID tag).
  - by destruct (SplitSSHID tag) as [[? ?]|].
  - by destruct (GetDevice (Data tag)).
Qed.

Lemma evaluate_calls fingerprint device tag :
  (evaluate fingerprint device tag).2
  = CallGetPublicKey fingerprint (TenantID device)
      :: if is_err (GetPublicKey fingerprint (TenantID device)) then []
         else [CallEvaluateKey fingerprint device (Username tag)].
Proof.
  unfold evaluate. destruct (GetPublicKey _ _); simpl; [|done].
  destruct (EvaluateKey _ _ _) as [ok err]. by destruct (negb ok || _).
Qed.

(** The calls of one invocation, stage by stage. *)
Lemma PublicKey_calls ctx pubKey :
  api_calls (PublicKey ctx pubKey)
  = match identifier_recovered ctx with
    | None => []
    | Some sshid =>
      match NewTarget sshid with
      | Err _ => []
      | Ok tag =>
        (if IsSSHID tag then [] else [CallGetDevice (Data tag)])
        ++ match (build_lookup tag).1 with
           | Err _ => []
           | Ok lookup =>
             CallDeviceLookup lookup
             :: if bool_decide (0 < length (DeviceLookup lookup).2) then []
                else match magicPubKey with
                     | Err _ => []
                     | Ok magic =>
                       if bool_decide (FingerprintLegacyMD5 magic
                                       ≠ FingerprintLegacyMD5 pubKey)
                       then CallGetPublicKey (FingerprintLegacyMD5 pubKey)
                                             (TenantID (DeviceLookup lookup).1)
                            :: if is_err (GetPublicKey (FingerprintLegacyMD5 pubKey)
                                            (TenantID (DeviceLookup lookup).1))
                               then []
                               else [CallEvaluateKey (FingerprintLegacyMD5 pubKey)
                                       (DeviceLookup lookup).1 (Username tag)]
                       else []
                     end
           end
      end
    end.
Proof.
  unfold PublicKey, identifier_recovered, deny.
  destruct (as_string _); [|done].
  destruct (NewTarget _) as [tag|]; [|done].
  pose proof (build_lookup_calls tag) as Hbl.
  destruct (build_lookup tag) as [[lookup|msg] calls]; simpl in *; subst calls.
  2: by rewrite app_nil_r.
  destruct (DeviceLookup lookup) as [device errs]. simpl.
  case_bool_decide; simpl; [done|].
  destruct magicPubKey; simpl; [|done].
  case_bool_decide; simpl; [|done].
  pose proof (evaluate_calls (FingerprintLegacyMD5 pubKey) device tag) as Hev.
  destruct (evaluate _ device tag) as [[msg|] calls']; simpl in *; subst calls';
    by rewrite <- app_assoc.
Qed.

(** X10. The API is used in a fixed order and each endpoint at most once per
    presented key: [GetDevice], [DeviceLookup], [GetPublicKey],
    [EvaluateKey].  [GetDevice] is called exactly for a parsed identifier
    that is not an SSHID, and [EvaluateKey] only with the presented key's
    fingerprint and only after [GetPublicKey] succeeded for it in the
    device's tenant. *)
Theorem PublicKey_call_discipline ctx pubKey :
  StronglySorted lt (call_rank <$> api_calls (PublicKey ctx pubKey)) /\
  (forall uid, CallGetDevice uid ∈ api_calls (PublicKey ctx pubKey) <->
     exists sshid tag, identifier_recovered ctx = Some sshid /\ NewTarget sshid = Ok tag /\
                       IsSSHID tag = false /\ uid = Data tag) /\
  (forall fingerprint device username,
     CallEvaluateKey fingerprint device username ∈ api_calls (PublicKey ctx pubKey) ->
     fingerprint = FingerprintLegacyMD5 pubKey /\
     is_err (GetPublicKey fingerprint (TenantID device)) = false /\
     CallGetPublicKey fingerprint (TenantID device) ∈ api_calls (PublicKey ctx pubKey)).
Proof.
  rewrite PublicKey_calls.
  destruct (identifier_recovered ctx) as [sshid|]; simpl.
  2: { split; [constructor|]. split; [|by intros ? ? ? ?%elem_of_nil].
       intros uid. split; [by intros ?%elem_of_nil | by intros (? & ? & ? & _)]. }
  destruct (NewTarget sshid) as [tag|e] eqn:Htag; simpl.
  2: { split; [constructor|]. split; [|by intros ? ? ? ?%elem_of_nil].
       intros uid. split; [by intros ?%elem_of_nil|].
       intros (? & ? & ? & ? & _). simplify_eq. congruence. }
  assert (forall uid,
             (exists sshid0 tag0, Some sshid = Some sshid0 /\ NewTarget sshid0 = Ok tag0 /\
                                  IsSSHID tag0 = false /\ uid = Data tag0)
             <-> IsSSHID tag = false /\ uid = Data tag) as Hex.
  { intros uid. split.
    - intros (? & ? & ? & ? & ? & ?). simplify_eq. split; congruence.
    - intros [? ?]. by exists sshid, tag. }
  split; [|split].
  - destruct (IsSSHID tag); simpl; repeat case_match; simpl;
      repeat (constructor; simpl; try lia).
  - intros uid. rewrite Hex.
    destruct (IsSSHID tag); simpl; repeat case_match; simpl;
      rewrite ?elem_of_cons, ?elem_of_nil; intuition (simplify_eq; auto).
  - intros fingerprint device username.
    destruct (IsSSHID tag); simpl; repeat case_match; simpl;
      rewrite ?elem_of_cons, ?elem_of_nil; intuition (simplify_eq; auto).
Qed.

(** X11. If the magic key pair cannot be turned into an SSH public key, no
    key is accepted: the callback rejects before it looks the presented key
    up, so also keys that [GetPublicKey] and [EvaluateKey] would accept. *)
Theorem PublicKey_rejects_without_magic ctx pubKey e :
  magicPubKey = Err e ->
  accepted (PublicKey ctx pubKey) = false /\
  Forall (fun c => is_key_call c = false) (api_calls (PublicKey ctx pubKey)).
Proof.
  intros Hm. unfold PublicKey, deny.
  destruct (as_string _); [|by split].
  destruct (NewTarget _) as [tag|]; [|by split].
  pose proof (build_lookup_no_key_call tag) as Hcalls.
  destruct (build_lookup tag) as [[lookup|msg] calls]; [|by split].
  destruct (DeviceLookup lookup) as [dev errs].
  assert (Forall (fun c => is_key_call c = false) (calls ++ [CallDeviceLookup lookup])).
  { apply Forall_app. split; [done|]. by repeat constructor. }
  rewrite Hm. by case_bool_decide.
Qed.

End CallProperties.

Lemma PublicKey_rejects_without_magic_witness :
  Auth.accepted (@Auth.PublicKey Calls.demo_no_magic
                   (Auth.demo_ctx "example.mydevice") "alice-key") = false /\
  Forall (fun c => Auth.is_key_call c = false)
         (Auth.api_calls (@Auth.PublicKey Calls.demo_no_magic
                            (Auth.demo_ctx "example.mydevice") "alice-key")).
Proof.
  exact (@PublicKey_rejects_without_magic Calls.demo_no_magic
           (Auth.demo_ctx "example.mydevice") "alice-key"
           "ssh: unsupported key type" eq_refl).
Defined.

(** * Properties of the Docker connector *)

Section ConnectorProperties.
Import Connector.

(** X12. Adding a connection succeeds exactly when the tenant has none.
    After a successful add the tenant's connection is the one added and the
    other tenants keep theirs; a refused add returns
    [ErrConnectorConnectionAlreadyAdded] and leaves the map, in particular
    the connection already registered, as it was. *)
Theorem AddConnection_spec {Ptr} (m : gmap string Ptr) tenant conn :
  match m !! tenant with
  | None =>
      (AddConnection m tenant conn).2 = None /\
      GetConnection (AddConnection m tenant conn).1 tenant = Ok conn /\
      forall other, other <> tenant ->
        GetConnection (AddConnection m tenant conn).1 other = GetConnection m other
  | Some old =>
      AddConnection m tenant conn = (m, Some ErrConnectorConnectionAlreadyAdded) /\
      GetConnection (AddConnection m tenant conn).1 tenant = Ok old
  end.
Proof.
  unfold AddConnection, GetConnection.
  destruct (m !! tenant) as [old|] eqn:Hm; simpl.
  - by rewrite Hm.
  - rewrite lookup_insert_eq. repeat split; try done.
    intros other Hne. by rewrite lookup_insert_ne.
Qed.

(** X13. Deleting a connection succeeds exactly when the tenant has one;
    afterwards the tenant has none and the other tenants keep theirs.  For
    a tenant without connection [ErrConnectorConnectionNotFound] is returned
    and the map is unchanged.  Deleting what was just added for a fresh
    tenant gives the map back. *)
Theorem DelConnection_spec {Ptr} (m : gmap string Ptr) tenant :
  match m !! tenant with
  | Some _ =>
      (DelConnection m tenant).2 = None /\
      GetConnection (DelConnection m tenant).1 tenant = Err ErrConnectorConnectionNotFound /\
      forall other, other <> tenant ->
        GetConnection (DelConnection m tenant).1 other = GetConnection m other
  | None =>
      DelConnection m tenant = (m, Some ErrConnectorConnectionNotFound) /\
      forall conn, DelConnection (AddConnection m tenant conn).1 tenant = (m, None)
  end.
Proof.
  unfold DelConnection, AddConnection, GetConnection.
  destruct (m !! tenant) as [old|] eqn:Hm; simpl.
  - rewrite lookup_delete_eq. repeat split; try done.
    intros other Hne. by rewrite lookup_delete_ne.
  - split; [done|]. intros conn. simpl. rewrite lookup_insert_eq.
    by rewrite delete_insert_id.
Qed.

Lemma apply_op_cli c op :
  match cli c with
  | Some h => cli (apply_op c op).1 = Some h
  | None => True
  end.
Proof.
  destruct c as [[h|] sp st sa pk]; [|done].
  destruct op as [address dial|ping close|close]; simpl.
  - done.
  - unfold Ping. simpl. by destruct ping.
  - done.
Qed.

Lemma apply_ops_cli ops c h :
  cli c = Some h -> cli (apply_ops c ops) = Some h.
Proof.
  revert c. induction ops as [|op ops IH]; intros c Hc; simpl; [done|].
  apply IH. pose proof (apply_op_cli c op) as H. by rewrite Hc in H.
Qed.

(** X14. A connection connects at most once in its life: once [Connect]
    has succeeded, the Docker client stays in place through any sequence of
    [Connect], [Ping] and [Disconnect], so every later [Connect] is refused
    with [ErrConnectionEstablished] and changes nothing, also after a
    [Disconnect]. *)
Theorem Connect_only_once c address dial ops address' dial' :
  (Connect c address dial).2 = None ->
  let c' := apply_ops (Connect c address dial).1 ops in
  Connect c' address' dial' = (c', Some ErrConnectionEstablished).
Proof.
  intros Hok c'. subst c'.
  assert (exists h, cli (Connect c address dial).1 = Some h) as [h Hh].
  { unfold Connect in *. destruct (cli c); [done|].
    destruct (dial address); [by eexists | done]. }
  unfold Connect at 1. by rewrite (apply_ops_cli ops _ h Hh).
Qed.

Lemma Connect_only_once_witness :
  Connect (apply_ops (Connect (NewConnection "http://localhost/" "/tmp/shellhub")
                              "tcp://localhost:2375" dial_ok).1
                     [OpDisconnect None])
          "tcp://localhost:2375" dial_ok
  = (apply_ops (Connect (NewConnection "http://localhost/" "/tmp/shellhub")
                        "tcp://localhost:2375" dial_ok).1
               [OpDisconnect None],
     Some ErrConnectionEstablished).
Proof.
  exact (Connect_only_once (NewConnection "http://localhost/" "/tmp/shellhub")
           "tcp://localhost:2375" dial_ok [OpDisconnect None]
           "tcp://localhost:2375" dial_ok eq_refl).
Defined.

Lemma apply_op_status c op :
  (cli c = None <-> status c = NilStatus) ->
  (cli (apply_op c op).1 = None <-> status (apply_op c op).1 = NilStatus).
Proof.
  intros Hinv. destruct c as [[h|] sp st sa pk]; simpl in *.
  - destruct op as [address dial|ping close|close]; simpl; [done| |done].
    unfold Ping. simpl. by destruct ping.
  - destruct op as [address dial|ping close|close]; simpl; [|done|done].
    unfold Connect. simpl. by destruct (dial address).
Qed.

(** X15. For a connection made by [NewConnection] and used through
    [Connect], [Ping] and [Disconnect]: the status is ["nil"] exactly as long
    as no Docker client has been created, and as long as that is so [Ping]
    and [Disconnect] fail with [ErrConnectionUndefined] without changing
    the connection. *)
Theorem status_nil_iff_no_client sa pk ops :
  let c := apply_ops (NewConnection sa pk) ops in
  (cli c = None <-> status c = NilStatus) /\
  (cli c = None ->
   forall ping close,
     Ping c ping close = (c, Some ErrConnectionUndefined) /\
     Disconnect c close = (c, Some ErrConnectionUndefined)).
Proof.
  intros c. split.
  - subst c. generalize (NewConnection sa pk) (conj (fun _ => eq_refl) (fun _ => eq_refl)
        : cli (NewConnection sa pk) = None <-> status (NewConnection sa pk) = NilStatus).
    induction ops as [|op ops IH]; intros c0 Hinv; simpl; [done|].
    apply IH. by apply apply_op_status.
  - intros Hc ping close. unfold Ping, Disconnect. by rewrite Hc.
Qed.

(** X16. A failed ping disconnects: the error of the ping is returned and
    the status becomes ["disconnected"], whatever closing the client
    returns; a successful ping changes nothing. *)
Theorem Ping_failure_disconnects c h ping close :
  cli c = Some h ->
  match ping with
  | Some e =>
      (Ping c ping close).2 = Some e /\
      status (Ping c ping close).1 = DisconnectedStatus /\
      cli (Ping c ping close).1 = Some h
  | None => Ping c ping close = (c, None)
  end.
Proof.
  intros Hc. unfold Ping, Disconnect. rewrite Hc. by destruct ping.
Qed.

Lemma Ping_failure_disconnects_witness :
  (Ping (Connect (NewConnection "http://localhost/" "/tmp/shellhub")
                 "tcp://localhost:2375" dial_ok).1
        (Some "ping: timeout") (Some "close: broken pipe")).2 = Some "ping: timeout" /\
  status (Ping (Connect (NewConnection "http://localhost/" "/tmp/shellhub")
                        "tcp://localhost:2375" dial_ok).1
               (Some "ping: timeout") (Some "close: broken pipe")).1 = DisconnectedStatus /\
  cli (Ping (Connect (NewConnection "http://localhost/" "/tmp/shellhub")
                     "tcp://localhost:2375" dial_ok).1
            (Some "ping: timeout") (Some "close: broken pipe")).1 = Some 7.
Proof.
  exact (Ping_failure_disconnects
           (Connect (NewConnection "http://localhost/" "/tmp/shellhub")
                    "tcp://localhost:2375" dial_ok).1
           7 (Some "ping: timeout") (Some "close: broken pipe") eq_refl).
Defined.

End ConnectorProperties.

(** * Properties of the user and namespace services *)

Section ServiceProperties.
Import Services.
Context `{E : Env}.

(** X17. [UpdateDataUser] refuses a request whose recovery e-mail equals
    the user's current e-mail or the e-mail of the request: it answers with
    the conflicts ["email"] and ["recovery_email"] and a bad request, after
    one read and without touching the store.  This includes every request
    that leaves both e-mail fields empty. *)
Theorem UpdateDataUser_recovery_email userID user req :
  st_UserGetByID userID = (Some user, None) ->
  reqRecoveryEmail req = User.Email user \/ reqRecoveryEmail req = reqEmail req ->
  UpdateDataUser userID req
  = (Returns (Some ["email"; "recovery_email"], Some ErrBadRequest), [UserGetByID userID]).
Proof.
  intros Hu Hr. unfold UpdateDataUser. rewrite Hu.
  destruct Hr as [-> | ->].
  - by rewrite bool_decide_true.
  - rewrite (bool_decide_true (reqEmail req = reqEmail req)) by done.
    by rewrite orb_true_r.
Qed.

(** X18. [UpdateDataUser] writes to the store at most once: exactly when
    the user is found, the recovery e-mail differs from both e-mails and the
    store reports no conflict.  The update then carries name, user name and
    e-mail of the request as they are, the recovery e-mail in lower case,
    and no password. *)
Theorem UpdateDataUser_writes userID req :
  writes (UpdateDataUser userID req).2
  = match st_UserGetByID userID with
    | (Some user, None) =>
        if bool_decide (reqRecoveryEmail req = User.Email user)
           || bool_decide (reqRecoveryEmail req = reqEmail req)
           || (st_UserConflicts (reqEmail req) (reqUsername req)).2
        then []
        else [UserUpdate userID
                (mkUserChanges (reqName req) (reqUsername req) (reqEmail req)
                               (ToLower (reqRecoveryEmail req)) "")]
    | _ => []
    end.
Proof.
  unfold UpdateDataUser, writes.
  destruct (st_UserGetByID userID) as [[user|] [e|]]; try done.
  destruct (bool_decide _ || bool_decide _); simpl; [done|].
  by destruct (st_UserConflicts _ _) as [conflicts []].
Qed.

(** X19. [UpdatePasswordUser] changes the password only when the user
    exists, the current password matches the stored one and the new
    password can be hashed; what it writes is the hash and nothing else.
    A wrong current password is answered with
    [ErrUserPasswordNotMatch] before anything is hashed or written. *)
Theorem UpdatePasswordUser_writes id currentPassword newPassword :
  writes (UpdatePasswordUser id currentPassword newPassword).2
  = match (st_UserGetByID id).1 with
    | Some user =>
        if Compare (User.Password user) currentPassword then
          match HashUserPassword newPassword with
          | Ok hash => [UserUpdate id (mkUserChanges "" "" "" "" hash)]
          | Err _ => []
          end
        else []
    | None => []
    end /\
  (forall user, (st_UserGetByID id).1 = Some user ->
                Compare (User.Password user) currentPassword = false ->
                (UpdatePasswordUser id currentPassword newPassword).1
                = Returns (Some ErrUserPasswordNotMatch)).
Proof.
  unfold UpdatePasswordUser, writes.
  destruct (st_UserGetByID id) as [[user|] err]; simpl; [|done].
  split.
  - destruct (Compare _ _); simpl; [|done]. by destruct (HashUserPassword _).
  - intros ? [= <-] ->. done.
Qed.

Lemma fill_members_Some members out done_ calls :
  mapM filled members = Some out ->
  fill_members members done_ calls
  = ((Some (rev done_ ++ out), None), calls ++ (UserGetByID ∘ Member.ID <$> members)).
Proof.
  revert out done_ calls.
  induction members as [|m ms IH]; intros out done_ calls Hm; simpl in *.
  - injection Hm as <-. by rewrite !app_nil_r.
  - destruct (filled m) as [x|] eqn:Hf; simpl in Hm; [|done].
    destruct (mapM filled ms) as [xs|] eqn:Hms; simpl in Hm; [|done].
    injection Hm as <-. unfold filled in Hf.
    destruct (st_UserGetByID (Member.ID m)) as [[user|] [e|]]; simplify_eq.
    rewrite (IH xs _ _ eq_refl). simpl. by rewrite <- !app_assoc.
Qed.

Lemma fill_members_None members done_ calls :
  mapM filled members = None ->
  exists id cause,
    (fill_members members done_ calls).1 = (None, Some (ErrUserNotFound id cause)) /\
    id ∈ Member.ID <$> members.
Proof.
  revert done_ calls.
  induction members as [|m ms IH]; intros done_ calls Hm; simpl in *; [done|].
  pose proof (eq_refl (filled m)) as Hf. unfold filled at 2 in Hf.
  destruct (st_UserGetByID (Member.ID m)) as [[user|] [e|]] eqn:Hu; simpl in *.
  - exists (Member.ID m), (Some e). split; [done|]. apply elem_of_cons. by left.
  - rewrite Hf in Hm. simpl in Hm.
    destruct (mapM filled ms) as [out|] eqn:Hms; simpl in Hm; [done|].
    destruct (IH (Member.mk (User.ID user) (User.Username user) (Member.Role m) :: done_)
                 (calls ++ [UserGetByID (Member.ID m)]) eq_refl)
      as (id & cause & Hr & Hin).
    exists id, cause. split; [done|]. apply elem_of_cons. by right.
  - exists (Member.ID m), (Some e). split; [done|]. apply elem_of_cons. by left.
  - exists (Member.ID m), None. split; [done|]. apply elem_of_cons. by left.
Qed.

Lemma filled_roles members out :
  mapM filled members = Some out ->
  length out = length members /\ Member.Role <$> out = Member.Role <$> members.
Proof.
  intros Hm. apply mapM_Some in Hm. split.
  - symmetry. by eapply Forall2_length.
  - induction Hm as [|m o ms os Hf _ IH]; simpl; [done|]. f_equal; [|done].
    unfold filled in Hf.
    by destruct (st_UserGetByID (Member.ID m)) as [[user|] [e|]]; simplify_eq.
Qed.

(** X20. [fillMembersData] is all or nothing: when the store has a user for
    every member, it returns the members in their order, each with the
    identifier and user name of its user and with its own role, after
    reading each user once, in order; otherwise it returns no member at all
    and an [ErrUserNotFound]. *)
Theorem fillMembersData_all_or_nothing members :
  match mapM filled members with
  | Some out =>
      fillMembersData members
      = ((Some out, None), UserGetByID ∘ Member.ID <$> members) /\
      length out = length members /\
      Member.Role <$> out = Member.Role <$> members
  | None =>
      exists id cause,
        (fillMembersData members).1 = (None, Some (ErrUserNotFound id cause)) /\
        id ∈ Member.ID <$> members
  end.
Proof.
  unfold fillMembersData.
  destruct (mapM filled members) as [out|] eqn:Hm.
  - rewrite (fill_members_Some _ _ _ _ Hm). simpl. split; [done|].
    by apply filled_roles.
  - by apply fill_members_None.
Qed.

(** X21. The namespace limit of [CreateNamespace]: a user whose
    [MaxNamespaces] is positive and not above the number of namespaces the
    user has is refused with [ErrNamespaceLimitReached] after one read and
    nothing else; a user whose [MaxNamespaces] is zero or negative is never
    refused for the limit, however many namespaces the user has. *)
Theorem CreateNamespace_limit namespace userID user :
  st_UserGetByID userID = (Some user, None) ->
  (limit_reached user = true ->
   CreateNamespace namespace userID
   = (Returns (None, Some (ErrNamespaceLimitReached (User.MaxNamespaces user))),
      [UserGetByID userID])) /\
  ((User.MaxNamespaces user <= 0)%Z ->
   forall limit,
     (CreateNamespace namespace userID).1
     <> Returns (None, Some (ErrNamespaceLimitReached limit))).
Proof.
  intros Hu. unfold CreateNamespace, limit_reached. rewrite Hu. split.
  - by intros ->.
  - intros Hmax limit.
    rewrite (bool_decide_false (0 < User.MaxNamespaces user)%Z) by lia. simpl.
    destruct (validate_Namespace _) as [ok verr].
    destruct (negb ok || _); [done|].
    destruct (st_NamespaceGetByName _) as [other err].
    destruct (_ && _); [done|].
    destruct other; [done|].
    by destruct (st_NamespaceCreate _).
Qed.

(** X22. [CreateNamespace] never panics and returns a namespace exactly when
    it returns no error.  The namespace returned is the one it stored: its
    name is the requested name in lower case, its owner and only member
    (with the owner's role) is the user, its tenant is the requested one or
    a generated one when none was requested, session recording is on, the
    device limit is 3 on a cloud instance and -1 otherwise.  It asks the
    store to create a namespace at most once, and only for a user under the
    limit and a name the store has no namespace for. *)
Theorem CreateNamespace_outcome namespace userID :
  (exists ns err,
      (CreateNamespace namespace userID).1 = Returns (ns, err) /\
      (is_Some ns <-> err = None)) /\
  (forall c, c ∈ writes (CreateNamespace namespace userID).2 ->
     exists user,
       st_UserGetByID userID = (Some user, None) /\
       limit_reached user = false /\
       (st_NamespaceGetByName (ToLower (ncName namespace))).1 = None /\
       writes (CreateNamespace namespace userID).2
       = [NamespaceCreate (new_namespace namespace user)] /\
       (forall ns, (CreateNamespace namespace userID).1 = Returns (Some ns, None) ->
                   ns = new_namespace namespace user)) /\
  (forall ns, (CreateNamespace namespace userID).1 = Returns (Some ns, None) ->
              NamespaceCreate ns ∈ writes (CreateNamespace namespace userID).2).
Proof.
  assert (forall (err : SvcError),
             (exists ns err0,
                 Returns (A:=option Namespace.t * option SvcError) (None, Some err)
                 = Returns (ns, err0) /\ (is_Some ns <-> err0 = None)) /\
             (forall c : Call, c ∈ [] ->
                exists user,
                  st_UserGetByID userID = (Some user, None) /\
                  limit_reached user = false /\
                  (st_NamespaceGetByName (ToLower (ncName namespace))).1 = None /\
                  [] = [NamespaceCreate (new_namespace namespace user)] /\
                  (forall ns, Returns (A:=option Namespace.t * option SvcError) (None, Some err)
                              = Returns (Some ns, None) ->
                              ns = new_namespace namespace user)) /\
             (forall ns, Returns (A:=option Namespace.t * option SvcError) (None, Some err)
                         = Returns (Some ns, None) ->
                         NamespaceCreate ns ∈ [])) as Hfail.
  { intros err. split; [|split].
    - eexists _, _. split; [reflexivity|]. split; [by intros [? ?] | done].
    - by intros ? ?%elem_of_nil.
    - by intros ? [=]. }
  unfold CreateNamespace, writes.
  destruct (st_UserGetByID userID) as [[user|] [e|]] eqn:Hu; simpl;
    try by apply Hfail.
  fold (limit_reached user).
  destruct (limit_reached user) eqn:Hl; simpl; [by apply Hfail|].
  destruct (validate_Namespace _) as [ok verr].
  destruct (negb ok || _); simpl; [by apply Hfail|].
  assert ((if bool_decide (ncTenantID namespace = "")
           then Namespace.set_TenantID
                  (Namespace.mk (ToLower (ncName namespace)) (User.ID user)
                     (ncTenantID namespace) [Member.mk (User.ID user) "" RoleOwner]
                     true "" 0) uuid_Generate
           else Namespace.mk (ToLower (ncName namespace)) (User.ID user)
                  (ncTenantID namespace) [Member.mk (User.ID user) "" RoleOwner]
                  true "" 0)
          = Namespace.mk (ToLower (ncName namespace)) (User.ID user)
              (if bool_decide (ncTenantID namespace = "") then uuid_Generate
               else ncTenantID namespace)
              [Member.mk (User.ID user) "" RoleOwner] true "" 0) as ->.
  { by case_bool_decide. }
  unfold Namespace.set_MaxDevices. simpl. fold (new_namespace namespace user).
  destruct (st_NamespaceGetByName (ToLower (ncName namespace))) as [other err] eqn:Hn.
  destruct (_ && _); simpl; [by apply Hfail|].
  destruct other; simpl; [by apply Hfail|].
  destruct (st_NamespaceCreate _); simpl.
  - split; [|split].
    + eexists _, _. split; [reflexivity|]. split; [by intros [? ?] | done].
    + intros c _. by exists user.
    + by intros ? [=].
  - split; [|split].
    + eexists _, _. split; [reflexivity|]. split; [done | by eexists].
    + intros c _. exists user. repeat split; try done. by intros ns [= <-].
    + intros ns [= <-]. by apply list_elem_of_singleton.
Qed.

(** The checks before a member is removed or edited. *)
Lemma member_checks_spec tenantID memberID userID :
  writes (member_checks tenantID memberID userID).2 = [] /\
  uncaches (member_checks tenantID memberID userID).2 = [] /\
  forall namespace member,
    (member_checks tenantID memberID userID).1 = Returns (inr (namespace, member)) ->
    exists user active passive,
      st_NamespaceGet tenantID true = (Some namespace, None) /\
      st_UserGetByID userID = (Some user, None) /\
      st_UserGetByID memberID = (Some member, None) /\
      FindMember namespace (User.ID user) = Some active /\
      FindMember namespace (User.ID member) = Some passive /\
      HasAuthority (Member.Role active) (Member.Role passive) = true.
Proof.
  unfold member_checks, writes, uncaches.
  destruct (st_NamespaceGet tenantID true) as [ns [e|]]; simpl; [done|].
  destruct (st_UserGetByID userID) as [user [e|]]; simpl; [done|].
  destruct (st_UserGetByID memberID) as [member [e|]]; simpl; [done|].
  destruct ns as [ns|]; [|done]. destruct user as [user|]; [|done].
  destruct (FindMember ns (User.ID user)) as [active|] eqn:Ha; [|done].
  destruct member as [member|]; [|done].
  destruct (FindMember ns (User.ID member)) as [passive|] eqn:Hp; [|done].
  destruct (HasAuthority _ _) eqn:Hauth; simpl; [|done].
  repeat split. intros ? ? [= <- <-]. by exists user, active, passive.
Qed.

Lemma filter_app_singleton {A} (p : A -> bool) l a :
  List.filter p (l ++ [a]) = List.filter p l ++ if p a then [a] else [].
Proof. rewrite List.filter_app. simpl. by destruct (p a). Qed.

(** X23. [RemoveNamespaceUser] asks the store to remove a member only when
    the acting user and the member both belong to the namespace and the
    acting member's role has authority over the member's role, and then
    only once, for that member.  The member's token is dropped from the
    cache exactly when the removal succeeded. *)
Theorem RemoveNamespaceUser_authority tenantID memberID userID :
  (forall c, c ∈ writes (RemoveNamespaceUser tenantID memberID userID).2 ->
     exists namespace user member active passive,
       st_NamespaceGet tenantID true = (Some namespace, None) /\
       st_UserGetByID userID = (Some user, None) /\
       st_UserGetByID memberID = (Some member, None) /\
       FindMember namespace (User.ID user) = Some active /\
       FindMember namespace (User.ID member) = Some passive /\
       HasAuthority (Member.Role active) (Member.Role passive) = true /\
       writes (RemoveNamespaceUser tenantID memberID userID).2
       = [NamespaceRemoveMember tenantID (User.ID member)]) /\
  (uncaches (RemoveNamespaceUser tenantID memberID userID).2 <> [] <->
   exists removed,
     (RemoveNamespaceUser tenantID memberID userID).1 = Returns (removed, None)).
Proof.
  unfold RemoveNamespaceUser.
  destruct (member_checks_spec tenantID memberID userID) as (Hw & Hu & Hok).
  destruct (member_checks tenantID memberID userID) as [[[err|[ns member]]|] calls];
    simpl in *.
  - rewrite Hw, Hu. split; [by intros ? ?%elem_of_nil|]. split; [done|by intros [? ?]].
  - destruct (Hok ns member eq_refl) as (user & active & passive & H1 & H2 & H3 & H4 & H5 & H6).
    destruct (st_NamespaceRemoveMember _ _) as [removed [e|]]; simpl;
      unfold writes, uncaches in *;
      rewrite ?app_assoc, ?filter_app_singleton, ?Hw, ?Hu; simpl.
    + split; [|split; [done|by intros [? ?]]].
      intros c _. by exists ns, user, member, active, passive.
    + split; [|split; [by eexists|done]].
      intros c _. by exists ns, user, member, active, passive.
  - rewrite Hw, Hu. split; [by intros ? ?%elem_of_nil|]. split; [done|by intros [? ?]].
Qed.

(** X24. [EditNamespaceUser] asks the store to change a member's role only
    when the acting user and the member both belong to the namespace and the
    acting member's role has authority over the member's current role, and
    drops the member's token from the cache exactly when the change
    succeeded.  The new role takes no part in the checks: whether the store
    is asked to change the role is the same for every new role. *)
Theorem EditNamespaceUser_authority tenantID userID memberID memberNewRole :
  (forall c, c ∈ writes (EditNamespaceUser tenantID userID memberID memberNewRole).2 ->
     exists namespace user member active passive,
       st_NamespaceGet tenantID true = (Some namespace, None) /\
       st_UserGetByID userID = (Some user, None) /\
       st_UserGetByID memberID = (Some member, None) /\
       FindMember namespace (User.ID user) = Some active /\
       FindMember namespace (User.ID member) = Some passive /\
       HasAuthority (Member.Role active) (Member.Role passive) = true /\
       writes (EditNamespaceUser tenantID userID memberID memberNewRole).2
       = [NamespaceEditMember tenantID (User.ID member) (RoleFromString memberNewRole)]) /\
  (uncaches (EditNamespaceUser tenantID userID memberID memberNewRole).2 <> [] <->
   (EditNamespaceUser tenantID userID memberID memberNewRole).1 = Returns None) /\
  (forall otherRole,
     length (writes (EditNamespaceUser tenantID userID memberID otherRole).2)
     = length (writes (EditNamespaceUser tenantID userID memberID memberNewRole).2)).
Proof.
  unfold EditNamespaceUser.
  destruct (member_checks_spec tenantID memberID userID) as (Hw & Hu & Hok).
  destruct (member_checks tenantID memberID userID) as [[[err|[ns member]]|] calls];
    simpl in *.
  - rewrite Hw, Hu. split; [by intros ? ?%elem_of_nil|]. by split.
  - destruct (Hok ns member eq_refl) as (user & active & passive & H1 & H2 & H3 & H4 & H5 & H6).
    split; [|split].
    + intros c _. exists ns, user, member, active, passive.
      repeat split; try done.
      destruct (st_NamespaceEditMember _ _ _); simpl; unfold writes in *;
        by rewrite ?app_assoc, ?filter_app_singleton, ?Hw.
    + destruct (st_NamespaceEditMember _ _ _); simpl; unfold uncaches in *;
        rewrite ?app_assoc, ?filter_app_singleton, ?Hu; simpl; by split.
    + intros otherRole.
      destruct (st_NamespaceEditMember _ _ (RoleFromString otherRole));
        destruct (st_NamespaceEditMember _ _ (RoleFromString memberNewRole));
        simpl; unfold writes in *;
        by rewrite ?app_assoc, ?filter_app_singleton, ?Hw.
  - rewrite Hw, Hu. split; [by intros ? ?%elem_of_nil|]. by split.
Qed.

(** X25. [AddNamespaceUser] asks the store to add a member only when the
    acting user belongs to the namespace, the user named is not yet a
    member, and the acting member's role has authority over the role
    requested; it then adds that user with that role, once. *)
Theorem AddNamespaceUser_authority memberUsername role tenantID userID :
  forall c, c ∈ writes (AddNamespaceUser memberUsername role tenantID userID).2 ->
    exists namespace user active passive,
      st_NamespaceGet tenantID true = (Some namespace, None) /\
      st_UserGetByID userID = (Some user, None) /\
      FindMember namespace (User.ID user) = Some active /\
      st_UserGetByUsername memberUsername = (Some passive, None) /\
      FindMember namespace (User.ID passive) = None /\
      HasAuthority (Member.Role active) (RoleFromString role) = true /\
      writes (AddNamespaceUser memberUsername role tenantID userID).2
      = [NamespaceAddMember tenantID (User.ID passive) (RoleFromString role)].
Proof.
  unfold AddNamespaceUser, writes.
  destruct (validate_Member _) as [ok verr].
  destruct (negb ok || _); simpl; [by intros ? ?%elem_of_nil|].
  destruct (st_NamespaceGet tenantID true) as [[ns|] [e|]]; simpl;
    try by intros ? ?%elem_of_nil.
  destruct (st_UserGetByID userID) as [[user|] [e|]]; simpl;
    try by intros ? ?%elem_of_nil.
  destruct (FindMember ns (User.ID user)) as [active|] eqn:Ha; simpl;
    [|by intros ? ?%elem_of_nil].
  destruct (st_UserGetByUsername memberUsername) as [[passive|] [e|]]; simpl;
    try by intros ? ?%elem_of_nil.
  destruct (FindMember ns (User.ID passive)) as [dup|] eqn:Hp; simpl;
    [by intros ? ?%elem_of_nil|].
  destruct (HasAuthority _ _) eqn:Hauth; simpl; [|by intros ? ?%elem_of_nil].
  destruct (st_NamespaceAddMember _ _ _) as [added err]. simpl.
  intros c _. by exists ns, user, active, passive.
Qed.

Lemma fill_members_reads members done_ calls :
  List.filter is_write (fill_members members done_ calls).2 = List.filter is_write calls.
Proof.
  revert done_ calls. induction members as [|m ms IH]; intros done_ calls; simpl; [done|].
  destruct (st_UserGetByID (Member.ID m)) as [[user|] [e|]]; simpl;
    rewrite ?IH, ?filter_app_singleton; simpl; by rewrite ?app_nil_r.
Qed.

(** X28. [GetNamespace] only reads, and never panics.  When it returns a
    namespace, that is the namespace of the store with its members filled
    in, every one of them: same members in the same order with the same
    roles.  A namespace one of whose members has no user is not returned
    at all. *)
Theorem GetNamespace_outcome tenantID :
  writes (GetNamespace tenantID).2 = [] /\
  (exists r, (GetNamespace tenantID).1 = Returns r) /\
  (forall ns, (GetNamespace tenantID).1 = Returns (Some ns, None) ->
     exists stored out,
       st_NamespaceGet tenantID true = (Some stored, None) /\
       mapM filled (Namespace.Members stored) = Some out /\
       ns = Namespace.set_Members stored out /\
       Member.Role <$> Namespace.Members ns = Member.Role <$> Namespace.Members stored) /\
  (forall stored, st_NamespaceGet tenantID true = (Some stored, None) ->
                  mapM filled (Namespace.Members stored) = None ->
                  exists err, (GetNamespace tenantID).1
                              = Returns (None, Some (ErrNamespaceMemberFillData err))).
Proof.
  unfold GetNamespace, writes.
  destruct (st_NamespaceGet tenantID true) as [[stored|] [e|]]; simpl;
    try (split; [done|]; split; [by eexists|]; split; [by intros ? [=]|];
         by intros ? [=]).
  pose proof (fill_members_reads (Namespace.Members stored) [] []) as Hreads.
  fold (fillMembersData (Namespace.Members stored)) in Hreads. simpl in Hreads.
  destruct (mapM filled (Namespace.Members stored)) as [out|] eqn:Hm.
  - pose proof (fill_members_Some _ _ [] [] Hm) as Hf.
    fold (fillMembersData (Namespace.Members stored)) in Hf. simpl in Hf.
    destruct (filled_roles _ _ Hm) as [_ Hroles].
    rewrite Hf in *. simpl in *.
    rewrite ?List.filter_app, ?Hreads. simpl.
    split; [done|]. split; [by eexists|]. split; [|intros ? [= <-] ?; congruence].
    intros ns [= <-]. by exists stored, out.
  - destruct (fill_members_None _ [] [] Hm) as (id & cause & Hf & _).
    fold (fillMembersData (Namespace.Members stored)) in Hf.
    destruct (fillMembersData (Namespace.Members stored)) as [[members err] calls].
    simpl in *. injection Hf as -> ->. rewrite ?List.filter_app, ?Hreads. simpl.
    split; [done|]. split; [by eexists|]. split; [by intros ? [=]|].
    intros ? [= <-] _. by eexists.
Qed.

End ServiceProperties.

Lemma UpdateDataUser_recovery_email_witness :
  @Services.UpdateDataUser Services.demo_env "u1"
     (Services.mkUserDataUpdate "Alice A." "" "" "")
  = (Services.Returns (Some ["email"; "recovery_email"], Some Services.ErrBadRequest),
     [Services.UserGetByID "u1"]).
Proof.
  apply (@UpdateDataUser_recovery_email Services.demo_env "u1" Services.alice);
    [reflexivity | right; reflexivity].
Defined.

Lemma CreateNamespace_limit_witness :
  @Services.CreateNamespace Services.demo_env
     (Services.mkNamespaceCreateReq "staging" "") "u2"
  = (Services.Returns (None, Some (Services.ErrNamespaceLimitReached 1)),
     [Services.UserGetByID "u2"]) /\
  (@Services.CreateNamespace Services.demo_env
      (Services.mkNamespaceCreateReq "staging" "") "u3").1
  <> Services.Returns (None, Some (Services.ErrNamespaceLimitReached (-1))).
Proof.
  split.
  - apply (proj1 (@CreateNamespace_limit Services.demo_env
                    (Services.mkNamespaceCreateReq "staging" "") "u2" Services.bob eq_refl)).
    reflexivity.
  - apply (proj2 (@CreateNamespace_limit Services.demo_env
                    (Services.mkNamespaceCreateReq "staging" "") "u3" Services.carol eq_refl)).
    simpl. lia.
Defined.

Lemma CreateNamespace_outcome_witness :
  Services.NamespaceCreate
    (@Services.new_namespace Services.demo_env
       (Services.mkNamespaceCreateReq "staging" "") Services.alice)
  ∈ Services.writes
      (@Services.CreateNamespace Services.demo_env
         (Services.mkNamespaceCreateReq "staging" "") "u1").2.
Proof.
  apply (proj2 (proj2 (@CreateNamespace_outcome Services.demo_env
                         (Services.mkNamespaceCreateReq "staging" "") "u1"))).
  reflexivity.
Defined.

Lemma RemoveNamespaceUser_authority_witness :
  exists namespace user member active passive,
    Services.demo_namespace_get "t1" true = (Some namespace, None) /\
    Services.demo_user_by_id "u1" = (Some user, None) /\
    Services.demo_user_by_id "u2" = (Some member, None) /\
    Services.demo_find_member namespace (Services.User.ID user) = Some active /\
    Services.demo_find_member namespace (Services.User.ID member) = Some passive /\
    bool_decide (Services.role_rank (Services.Member.Role passive)
                 < Services.role_rank (Services.Member.Role active)) = true /\
    Services.writes (@Services.RemoveNamespaceUser Services.demo_env "t1" "u2" "u1").2
    = [Services.NamespaceRemoveMember "t1" (Services.User.ID member)].
Proof.
  apply (proj1 (@RemoveNamespaceUser_authority Services.demo_env "t1" "u2" "u1")
           (Services.NamespaceRemoveMember "t1" "u2")).
  apply list_elem_of_here.
Defined.

Lemma EditNamespaceUser_authority_witness :
  exists namespace user member active passive,
    Services.demo_namespace_get "t1" true = (Some namespace, None) /\
    Services.demo_user_by_id "u1" = (Some user, None) /\
    Services.demo_user_by_id "u2" = (Some member, None) /\
    Services.demo_find_member namespace (Services.User.ID user) = Some active /\
    Services.demo_find_member namespace (Services.User.ID member) = Some passive /\
    bool_decide (Services.role_rank (Services.Member.Role passive)
                 < Services.role_rank (Services.Member.Role active)) = true /\
    Services.writes
      (@Services.EditNamespaceUser Services.demo_env "t1" "u1" "u2" "owner").2
    = [Services.NamespaceEditMember "t1" (Services.User.ID member) "owner"].
Proof.
  apply (proj1 (@EditNamespaceUser_authority Services.demo_env "t1" "u1" "u2" "owner")
           (Services.NamespaceEditMember "t1" "u2" "owner")).
  apply list_elem_of_here.
Defined.

Lemma AddNamespaceUser_authority_witness :
  exists namespace user active passive,
    Services.demo_namespace_get "t1" true = (Some namespace, None) /\
    Services.demo_user_by_id "u1" = (Some user, None) /\
    Services.demo_find_member namespace (Services.User.ID user) = Some active /\
    Services.demo_user_by_name "carol" = (Some passive, None) /\
    Services.demo_find_member namespace (Services.User.ID passive) = None /\
    bool_decide (Services.role_rank "observer"
                 < Services.role_rank (Services.Member.Role active)) = true /\
    Services.writes
      (@Services.AddNamespaceUser Services.demo_env "carol" "observer" "t1" "u1").2
    = [Services.NamespaceAddMember "t1" (Services.User.ID passive) "observer"].
Proof.
  apply (@AddNamespaceUser_authority Services.demo_env "carol" "observer" "t1" "u1"
           (Services.NamespaceAddMember "t1" "u3" "observer")).
  apply list_elem_of_here.
Defined.

(** * Properties of the permissions *)

Section GuardProperties.
Import Guard.
Local Open Scope Z_scope.

(** X26. The roles form a hierarchy: every permission of the observer is
    one of the operator, every permission of the operator one of the
    administrator, every permission of the administrator one of the owner.
    What the owner has beyond the administrator is the deletion of the
    namespace and billing, and no role is granted
    [BillingGetPaymentMethod]. *)
Theorem role_hierarchy :
  (forall p, p ∈ observerPermissions -> p ∈ operatorPermissions) /\
  (forall p, p ∈ operatorPermissions -> p ∈ adminPermissions) /\
  (forall p, p ∈ adminPermissions -> p ∈ ownerPermissions) /\
  (forall p, p ∈ ownerPermissions ->
             p ∈ adminPermissions \/ p = NamespaceDelete \/ p ∈ billing) /\
  (forall p, p ∈ adminPermissions -> p <> NamespaceDelete /\ p ∉ billing) /\
  BillingGetPaymentMethod ∉ ownerPermissions.
Proof.
  assert (forall lower higher, included lower higher = true ->
                               forall p, p ∈ lower -> p ∈ higher) as Hinc.
  { intros lower higher Hi p Hp. unfold included in Hi.
    rewrite forallb_forall in Hi. apply list_elem_of_In in Hp.
    specialize (Hi p Hp). by apply bool_decide_eq_true in Hi. }
  split; [by apply Hinc|]. split; [by apply Hinc|]. split; [by apply Hinc|].
  split; [|split].
  - intros p Hp.
    assert (forallb (fun p => grants adminPermissions p
                            || bool_decide (p = NamespaceDelete)
                            || grants billing p) ownerPermissions = true) as Hall
        by reflexivity.
    rewrite forallb_forall in Hall. apply list_elem_of_In in Hp.
    specialize (Hall p Hp).
    apply orb_prop in Hall as [Hall|Hb]; [apply orb_prop in Hall as [Ha|Hd]|].
    + left. by apply bool_decide_eq_true in Ha.
    + right. left. by apply bool_decide_eq_true in Hd.
    + right. right. by apply bool_decide_eq_true in Hb.
  - intros p Hp.
    assert (forallb (fun p => negb (bool_decide (p = NamespaceDelete))
                            && negb (grants billing p)) adminPermissions = true) as Hall
        by reflexivity.
    rewrite forallb_forall in Hall. apply list_elem_of_In in Hp.
    specialize (Hall p Hp). apply andb_prop in Hall as [Hd Hb].
    split.
    + apply negb_true_iff in Hd. by apply bool_decide_eq_false in Hd.
    + apply negb_true_iff in Hb. by apply bool_decide_eq_false in Hb.
  - apply (bool_decide_eq_false_1 _). reflexivity.
Qed.

End GuardProperties.

(** * Properties of the heartbeat worker *)

Section HeartbeatProperties.
Import Heartbeat.

Lemma Split_nonempty s sep : Split s sep <> [].
Proof.
  destruct s as [|c rest]; simpl; [done|].
  destruct (Ascii.eqb c sep); [done|]. by destruct (Split rest sep).
Qed.

Lemma Split_one s sep piece :
  Split s sep = [piece] <-> s = piece /\ lacks sep s = true.
Proof.
  revert piece. induction s as [|c rest IH]; intros piece; simpl.
  - split; [by intros [= <-] | by intros [<- _]].
  - destruct (Ascii.eqb c sep) eqn:Hc; simpl.
    + split; [|by intros [_ ?]].
      intros [= _ Hs]. by destruct (Split_nonempty rest sep).
    + destruct (Split rest sep) as [|p ps] eqn:Hs.
      { by destruct (Split_nonempty rest sep). }
      split.
      * intros [= <- ->]. destruct (proj1 (IH p) eq_refl) as [-> Hl]. done.
      * intros [<- Hl].
        pose proof (proj2 (IH rest) (conj eq_refl Hl)) as Heq.
        by injection Heq as -> ->.
Qed.

Lemma Split_two s sep entry stamp :
  Split s sep = [entry; stamp] <->
  s = entry +:+ String sep stamp /\ lacks sep entry = true /\ lacks sep stamp = true.
Proof.
  revert entry. induction s as [|c rest IH]; intros entry; simpl.
  - split; [done|]. intros [Hs _]. by destruct entry.
  - destruct (Ascii.eqb c sep) eqn:Hc; simpl.
    + apply Ascii.eqb_eq in Hc as ->. split.
      * intros [= <- Hs]. apply Split_one in Hs as [-> Hl]. done.
      * intros (Hs & Hl & Hr). destruct entry as [|c' entry']; simpl in *.
        -- injection Hs as ->. f_equal. by apply Split_one.
        -- injection Hs as <- _. by rewrite Ascii.eqb_refl in Hl.
    + destruct (Split rest sep) as [|p ps] eqn:Hs.
      { by destruct (Split_nonempty rest sep). }
      split.
      * intros [= <- ->]. destruct (proj1 (IH p) eq_refl) as (-> & Hl & Hr).
        simpl. by rewrite Hc.
      * intros (Hsrc & Hl & Hr). destruct entry as [|c' entry']; simpl in *.
        -- injection Hsrc as -> _. by rewrite Ascii.eqb_refl in Hc.
        -- injection Hsrc as <- ->. apply andb_prop in Hl as [_ Hl].
           pose proof (proj2 (IH entry') (conj eq_refl (conj Hl Hr))) as Heq.
           by injection Heq as -> ->.
Qed.

Lemma digit_range c d : digit c = Some d -> (0 <= d <= 9)%Z.
Proof. unfold digit. case_bool_decide; [|done]. intros [= <-]. lia. Qed.

Lemma digits_lacks s acc n sep :
  digit sep = None -> digits s acc = Some n -> lacks sep s = true.
Proof.
  intros Hsep. revert acc. induction s as [|c rest IH]; intros acc; simpl; [done|].
  destruct (digit c) as [d|] eqn:Hd; [|done]. intros Hn.
  rewrite (IH _ Hn), andb_true_r. apply negb_true_iff.
  destruct (Ascii.eqb c sep) eqn:Hc; [|done].
  apply Ascii.eqb_eq in Hc as ->. congruence.
Qed.

Lemma digits_nonneg s acc n : (0 <= acc)%Z -> digits s acc = Some n -> (0 <= n)%Z.
Proof.
  revert acc. induction s as [|c rest IH]; intros acc Hacc; simpl.
  - intros [= <-]. done.
  - destruct (digit c) as [d|] eqn:Hd; [|done].
    apply digit_range in Hd. apply IH. lia.
Qed.

Lemma ParseInt_spec s n :
  ParseInt s = Some n ->
  (- 2 ^ 63 <= n < 2 ^ 63)%Z /\ lacks "=" s = true.
Proof.
  unfold ParseInt. destruct s as [|c rest]; [done|].
  destruct (Ascii.eqb c "+") eqn:Hplus; [|destruct (Ascii.eqb c "-") eqn:Hminus].
  - apply Ascii.eqb_eq in Hplus as ->.
    destruct rest as [|c' rest']; [done|].
    destruct (digits (String c' rest') 0) as [un|] eqn:Hd; [|done].
    case_bool_decide; [|done]. intros [= <-].
    pose proof (digits_nonneg _ _ _ (Z.le_refl 0) Hd).
    split; [lia|]. change (lacks "=" (String c' rest') = true).
    by apply (digits_lacks _ 0%Z un).
  - apply Ascii.eqb_eq in Hminus as ->.
    destruct rest as [|c' rest']; [done|].
    destruct (digits (String c' rest') 0) as [un|] eqn:Hd; [|done].
    case_bool_decide; [|done]. intros [= <-].
    pose proof (digits_nonneg _ _ _ (Z.le_refl 0) Hd).
    split; [lia|]. change (lacks "=" (String c' rest') = true).
    by apply (digits_lacks _ 0%Z un).
  - destruct (digits (String c rest) 0) as [un|] eqn:Hd; [|done].
    case_bool_decide; [|done]. intros [= <-].
    pose proof (digits_nonneg _ _ _ (Z.le_refl 0) Hd).
    split; [lia|]. by apply (digits_lacks _ 0%Z un).
Qed.

Lemma parse_line_range line d :
  parse_line line = Ok d -> (- 2 ^ 63 <= LastSeen d < 2 ^ 63)%Z.
Proof.
  unfold parse_line.
  destruct (Split line "=") as [|entry [|stamp [|? ?]]]; try done.
  destruct (ParseInt stamp) as [lastSeen|] eqn:Hp; [|done].
  destruct (Split entry ":") as [|tenant [|uid [|? ?]]]; try done.
  intros [= <-]. simpl. by apply (ParseInt_spec stamp).
Qed.

(** X27. The heartbeat worker accepts a line exactly when it has the form
    [tenant:uid=timestamp], where neither the tenant nor the device
    identifier contains [':'] or ['='] and the timestamp is a decimal
    integer that fits 64 bits; the device reported then carries exactly
    these three values, the timestamp within the signed 64-bit range.
    Every other line is skipped. *)
Theorem heartbeat_line_accepted_iff line d :
  (parse_line line = Ok d <->
   exists timestamp,
     line = TenantID d +:+ String ":" (UID d +:+ String "=" timestamp) /\
     ParseInt timestamp = Some (LastSeen d) /\
     lacks ":" (TenantID d) = true /\ lacks "=" (TenantID d) = true /\
     lacks ":" (UID d) = true /\ lacks "=" (UID d) = true) /\
  (parse_line line = Ok d -> - 2 ^ 63 <= LastSeen d < 2 ^ 63)%Z.
Proof.
  split; [|apply parse_line_range].
  assert (forall a c b, lacks c (a +:+ b) = lacks c a && lacks c b) as Happ.
  { intros a c b. induction a as [|x a IH]; [done|].
    change (negb (Ascii.eqb x c) && lacks c (a +:+ b)
            = negb (Ascii.eqb x c) && lacks c a && lacks c b).
    by rewrite IH, andb_assoc. }
  assert (forall a b c, (a +:+ b) +:+ c = a +:+ (b +:+ c)) as Hassoc.
  { intros a b c. induction a as [|x a IH]; [done|].
    change (String x ((a +:+ b) +:+ c) = String x (a +:+ (b +:+ c))). by rewrite IH. }
  unfold parse_line. split.
  - destruct (Split line "=") as [|entry [|stamp [|? ?]]] eqn:Hs; try done.
    destruct (ParseInt stamp) as [lastSeen|] eqn:Hp; [|done].
    destruct (Split entry ":") as [|tenant [|uid [|? ?]]] eqn:Hs'; try done.
    intros [= <-]. simpl.
    apply Split_two in Hs as (-> & Hl & Hr).
    apply Split_two in Hs' as (-> & Ht & Hu).
    rewrite Happ in Hl. simpl in Hl. apply andb_prop in Hl as [Hl1 Hl2].
    exists stamp. by rewrite Hassoc.
  - intros (timestamp & -> & Hp & Ht1 & Ht2 & Hu1 & Hu2).
    destruct (ParseInt_spec _ _ Hp) as [_ Hl].
    assert (Split (TenantID d +:+ String ":" (UID d +:+ String "=" timestamp)) "="
            = [TenantID d +:+ String ":" (UID d); timestamp]) as ->.
    { apply Split_two. split.
      - rewrite Hassoc. done.
      - split; [|done]. rewrite Happ. simpl. by rewrite Ht2, Hu2. }
    rewrite Hp.
    assert (Split (TenantID d +:+ String ":" (UID d)) ":" = [TenantID d; UID d]) as ->.
    { by apply Split_two. }
    by destruct d.
Qed.

(** Lines of a task as they are handled: a device, a line with a second
    [':'] and a line without timestamp. *)
Example heartbeat_task :
  Init (fun payload => Split payload "010")
       ["t1:dev-1=1700000000" +:+ String "010" ("t1:dev:2=1700000001" +:+ String "010" "t1:dev-3=")]
  = [[mkConnectedDevice "dev-1" "t1" 1700000000]].
Proof. reflexivity. Qed.

End HeartbeatProperties.
